(** * Dashboard views: number formatting, category ranking, inventory log viewer

    A shallow embedding of the pure and stateful logic of
    [src/components/dashboard/MonthlyReportCard.tsx] (both variants of the
    monthly report widget) and [src/pages/InventoryLogs.tsx].

    Conventions.
    - The argument of [formatNumber] is an IEEE-754 binary64 value, Rocq's
      primitive [float]; division and comparison are the hardware ones and
      [toFixed] follows ECMA-262 (Number.prototype.toFixed) on the exact value
      of the double.
    - The counts and amounts that the backend reports (units sold, revenue,
      stock levels, page numbers) are integers, [Z]; [number_of_Z] is the
      double that such a number is when it reaches [formatNumber].
    - The two balances of a log entry enter a subtraction and are printed:
      they are doubles, the subtraction is the hardware one, and a number
      placed in the page is printed by Number::toString (ECMA-262
      6.1.6.1.20), the closest of the shortest decimals that round to it.
    - A JavaScript string is a [string]: its characters are the code units
      (those below U+0100), so [String.length] is [.length].
    - A field that may be missing at run time is an [option]; a property
      access on [undefined] raises [TypeError], and code that can raise
      returns a [result]. The [type] of a log entry is a [Value]: a string,
      or any of the other things JSON can put in its place. Every other
      field has the type that its interface declares, and the elements of an
      array are objects.
    - Arrays are passed by reference and live in a store; [sort] works in
      place.
    - An asynchronous function is cut at its [await]: one transition up to
      the request, one from the response on. *)

From Stdlib Require Import ZArith String Ascii Floats DecimalString Lia.
From Stdlib Require Decimal DecimalFacts DecimalPos DecimalN DecimalZ.
From stdpp Require Import base option list sorting.

Open Scope string_scope.
Open Scope Z_scope.

(** ** JavaScript numbers: decimal renderings *)

(** Decimal digits of a non-negative integer, no leading zeros, ["0"] for 0. *)
Definition digits (n : Z) : string :=
  NilZero.string_of_uint (N.to_uint (Z.to_N n)).

(** [String(n)] for an integer [n] of moderate size. *)
Definition string_of_Z (n : Z) : string :=
  NilZero.string_of_int (Z.to_int n).

Fixpoint zeros (k : nat) : string :=
  match k with O => "" | S k' => String "0" (zeros k') end.

(** Steps 9-10 of Number.prototype.toFixed: the digits of [n] with a point
    inserted [f] places from the right, padded on the left with zeros. *)
Definition fixed_digits (n : Z) (f : nat) : string :=
  let m := digits n in
  match f with
  | O => m
  | S _ =>
      let k := String.length m in
      let m' := if (k <=? f)%nat then zeros (f + 1 - k) ++ m else m in
      let k' := String.length m' in
      substring 0 (k' - f) m' ++ "." ++ substring (k' - f) f m'
  end.

(** The integer [n] for which [n / 10^f - x] is as close to zero as possible,
    the larger one on a tie, for [x = m * 2^e > 0]. *)
Definition nearest (m : positive) (e : Z) (f : nat) : Z :=
  let p := 10 ^ Z.of_nat f in
  if 0 <=? e then Z.pos m * 2 ^ e * p
  else (2 * Z.pos m * p + 2 ^ (- e)) / (2 * 2 ^ (- e)).

(** The value [x] written in decimal with exactly [f] fraction digits: what
    "rendered with f decimal places" means for a finite double. *)
Definition renderDecimals (x : float) (f : nat) : string :=
  match Prim2SF x with
  | S754_finite s m e => (if s then "-" else "") ++ fixed_digits (nearest m e f) f
  | _ => fixed_digits 0 f
  end.

(** *** Number::toString for large values

    For a finite [x >= 10^21] the shortest decimal [s * 10^(n-k)] that rounds
    to [x] is printed in exponent notation. [x = m * 2^e] with [e > 0]. *)

Definition roundsTo (m : positive) (e : Z) (v : Z) : bool :=
  let below := if Z.pos m =? 2 ^ 52 then 1 else 2 in
  let lo := (4 * Z.pos m - below) * 2 ^ e in
  let hi := (4 * Z.pos m + 2) * 2 ^ e in
  if Z.even (Z.pos m) then (lo <=? 4 * v) && (4 * v <=? hi)
  else (lo <? 4 * v) && (4 * v <? hi).

Fixpoint shortest (fuel : nat) (k : Z) (m : positive) (e : Z) (nd : Z) : Z :=
  let X := Z.pos m * 2 ^ e in
  match fuel with
  | O => X
  | S fuel' =>
      let p := 10 ^ (nd - k) in
      let lo := X / p * p in
      let hi := lo + p in
      match roundsTo m e lo, roundsTo m e hi with
      | true, true =>
          if X - lo <? hi - X then lo
          else if hi - X <? X - lo then hi
          else if Z.even (X / p) then lo else hi
      | true, false => lo
      | false, true => hi
      | false, false => shortest fuel' (k + 1) m e nd
      end
  end.

Fixpoint stripZeros (rev_digits : list ascii) : list ascii :=
  match rev_digits with
  | "0"%char :: l => stripZeros l
  | l => l
  end.

Definition exponential (v : Z) : string :=
  let ds := list_ascii_of_string (digits v) in
  let n := Z.of_nat (length ds) in
  match rev (stripZeros (rev ds)) with
  | [] => "0"
  | d :: [] => String d ("e+" ++ digits (n - 1))
  | d :: rest => String d ("." ++ string_of_list_ascii rest ++ "e+" ++ digits (n - 1))
  end.

Definition toStringLarge (m : positive) (e : Z) : string :=
  let nd := Z.of_nat (String.length (digits (Z.pos m * 2 ^ e))) in
  exponential (shortest 17 1 m e nd).

(** Number.prototype.toFixed(f), for [0 <= f <= 100]. *)
Definition toFixed (x : float) (f : nat) : string :=
  match Prim2SF x with
  | S754_nan => "NaN"
  | S754_infinity false => "Infinity"
  | S754_infinity true => "-Infinity"
  | S754_zero _ => fixed_digits 0 f
  | S754_finite s m e =>
      if (1e21 <=? abs x)%float
      then (if s then "-" else "") ++ toStringLarge m e
      else (if s then "-" else "") ++ fixed_digits (nearest m e f) f
  end.

(** ** Magnitude formatter (MonthlyReportCard.tsx, both variants) *)

Definition formatNumber (value : float) : string :=
  let num := value in
  if is_nan num then "0"
  else if (10000000 <=? num)%float then toFixed (num / 10000000) 2 ++ " Cr"
  else if (100000 <=? num)%float then toFixed (num / 100000) 2 ++ " Lac"
  else if (1000 <=? num)%float then toFixed (num / 1000) 1 ++ "K"
  else toFixed num 0.

(** *** The formatter as the specification words it *)

(** Threshold, decimal places and suffix of each bracket, highest first. *)
Definition brackets : list (float * nat * string) :=
  [ (10000000%float, 2%nat, " Cr"); (100000%float, 2%nat, " Lac");
    (1000%float, 1%nat, "K") ].

(** The first bracket, from the top, whose threshold [value] reaches. *)
Definition bracketOf (value : float) : option (float * nat * string) :=
  List.find (fun b => (b.1.1 <=? value)%float) brackets.

(** The number that is rendered: the quotient by the bracket's threshold. *)
Definition scaled (value : float) : float :=
  match bracketOf value with
  | Some (threshold, _, _) => (value / threshold)%float
  | None => value
  end.

(** Finite and below 10^21 in magnitude: the range on which [toFixed] writes
    plain decimal digits. *)
Definition decimalRange (x : float) : bool :=
  match Prim2SF x with
  | S754_zero _ | S754_finite _ _ _ => negb (1e21 <=? abs x)%float
  | _ => false
  end.

Definition formatNumber_spec (value : float) : string :=
  if is_nan value then "0"
  else match bracketOf value with
       | Some (threshold, places, suffix) =>
           renderDecimals (value / threshold) places ++ suffix
       | None => renderDecimals value 0
       end.

(** The double that the literal [1e28] denotes. *)
Definition ten_pow_28 : float := 9999999999999999583119736832%float.

(** A JSON number that is an integer, as the double [formatNumber] receives. *)
Definition number_of_Z (z : Z) : float :=
  SF2Prim (binary_normalize prec emax z 0 false).

(** *** Number::toString

    For a finite [x = m * 2^e > 0]: integers [n], [k] and [s] with
    [10^(k-1) <= s < 10^k], [s * 10^(n-k)] rounding to [x] and [k] as small as
    possible; of the candidates the one closest to [x], the even one on a
    tie. The search returns [s] and the exponent [d = n - k]. *)

(** Whether the decimal [s * 10^d] rounds to the double [m * 2^e]: it lies
    between the midpoints to the two neighbours, the midpoints included when
    [m] is even. The lower neighbour of a power of two is half as far away. *)
Definition roundsToDouble (m : positive) (e : Z) (s d : Z) : bool :=
  let below := if (Z.pos m =? 2 ^ 52) && negb (e =? -1074) then 1 else 2 in
  let v := 4 * s * 10 ^ Z.max 0 d * 2 ^ Z.max 0 (- e) in
  let lo := (4 * Z.pos m - below) * 2 ^ Z.max 0 e * 10 ^ Z.max 0 (- d) in
  let hi := (4 * Z.pos m + 2) * 2 ^ Z.max 0 e * 10 ^ Z.max 0 (- d) in
  if Z.even (Z.pos m) then (lo <=? v) && (v <=? hi) else (lo <? v) && (v <? hi).

(** The least [j >= 1] with [1 <= m * 2^e * 10^j], for [m * 2^e < 1]. *)
Fixpoint leadingZeros (fuel : nat) (j : Z) (m : positive) (e : Z) : Z :=
  match fuel with
  | O => j
  | S fuel' =>
      if 2 ^ (- e) <=? Z.pos m * 10 ^ j then j else leadingZeros fuel' (j + 1) m e
  end.

(** The [n] with [10^(n-1) <= m * 2^e < 10^n]. *)
Definition magnitude (m : positive) (e : Z) : Z :=
  let whole := Z.pos m * 2 ^ Z.max 0 e / 2 ^ Z.max 0 (- e) in
  if 0 <? whole then Z.of_nat (String.length (digits whole))
  else 1 - leadingZeros 400 1 m e.

(** With [k] digits the two candidates are the multiples of [10^(n-k)] around
    [m * 2^e]; seventeen digits always tell a double from its neighbours. *)
Fixpoint shortestDecimal (fuel : nat) (k : Z) (m : positive) (e : Z) (n : Z) : Z * Z :=
  let d := n - k in
  let num := Z.pos m * 2 ^ Z.max 0 e * 10 ^ Z.max 0 (- d) in
  let den := 2 ^ Z.max 0 (- e) * 10 ^ Z.max 0 d in
  let lo := num / den in
  let hi := lo + 1 in
  let r := num mod den in
  match fuel with
  | O => (lo, d)
  | S fuel' =>
      match roundsToDouble m e lo d, roundsToDouble m e hi d with
      | true, true =>
          if r <? den - r then (lo, d)
          else if den - r <? r then (hi, d)
          else if Z.even lo then (lo, d) else (hi, d)
      | true, false => (lo, d)
      | false, true => (hi, d)
      | false, false => shortestDecimal fuel' (k + 1) m e n
      end
  end.

(** Steps 7-11: plain digits when [0 < n <= 21], leading zeros when
    [-6 < n <= 0], exponent notation otherwise. *)
Definition toStringPositive (m : positive) (e : Z) : string :=
  let '(s, d) := shortestDecimal 17 1 m e (magnitude m e) in
  let all := list_ascii_of_string (digits s) in
  let ds := string_of_list_ascii (rev (stripZeros (rev all))) in
  let k := Z.of_nat (String.length ds) in
  let n := Z.of_nat (length all) + d in
  if (k <=? n) && (n <=? 21) then ds ++ zeros (Z.to_nat (n - k))
  else if (0 <? n) && (n <=? 21) then
    substring 0 (Z.to_nat n) ds ++ "." ++ substring (Z.to_nat n) (Z.to_nat (k - n)) ds
  else if (-6 <? n) && (n <=? 0) then "0." ++ zeros (Z.to_nat (- n)) ++ ds
  else
    let exponent := (if 0 <=? n - 1 then "+" else "-") ++ digits (Z.abs (n - 1)) in
    match ds with
    | String c "" => String c ("e" ++ exponent)
    | String c rest => String c ("." ++ rest ++ "e" ++ exponent)
    | "" => "0"
    end.

(** [String(x)], and what React prints for a number among the children of an
    element. *)
Definition toString (x : float) : string :=
  match Prim2SF x with
  | S754_nan => "NaN"
  | S754_zero _ => "0"
  | S754_infinity s => (if s then "-" else "") ++ "Infinity"
  | S754_finite s m e => (if s then "-" else "") ++ toStringPositive m e
  end.

(** *** Whole numbers as doubles *)

(** The double that the whole number [a] is, [0 < a < 2^53]: the mantissa
    has 53 bits. *)
Definition wholeMantissa (a : positive) : positive :=
  Z.to_pos (Z.pos a * 2 ^ (53 - Z.pos (Pos.size a))).

Definition wholeExponent (a : positive) : Z := Z.pos (Pos.size a) - 53.

(** The digit of a number below ten. *)
Definition digit (r : Z) : ascii := ascii_of_N (48 + Z.to_N r).

(** ** Results of fallible code *)

Inductive error := TypeError.

Inductive result (A : Type) :=
  | Ok (a : A)
  | Throw (e : error).
Arguments Ok {A} a.
Arguments Throw {A} e.

(** [a || b] on a possibly missing number: [undefined], [null] and [0] are
    falsy. *)
Definition or_else (a : option Z) (b : Z) : Z :=
  match a with
  | Some v => if v =? 0 then b else v
  | None => b
  end.

(** ** Arrays *)

Section Arrays.
Context {A : Type}.

(** [Array.prototype.sort(compareFn)]: a stable sort; [x] is moved behind
    [y] exactly when [compareFn x y > 0]. *)
Section Sort.
Variable compareFn : A -> A -> Z.

Fixpoint insert (x : A) (l : list A) : list A :=
  match l with
  | [] => [x]
  | y :: l' => if 0 <? compareFn x y then y :: insert x l' else x :: l
  end.

Definition sort (l : list A) : list A := foldr insert [] l.
End Sort.

(** [Array.prototype.slice(0, n)]. *)
Definition slice0 (n : nat) (l : list A) : list A := take n l.

(** Arrays live in a store and are passed by reference: [sort] works in
    place, the spread [[...a]] and [slice] allocate. *)
Abbreviation ref := nat (only parsing).
Abbreviation store := (list (list A)) (only parsing).

(** A computation on the store; [None] only for a reference that was never
    allocated. *)
Definition M (B : Type) := store -> option (B * store).

Definition ret {B} (b : B) : M B := fun s => Some (b, s).
Definition bind {B C} (m : M B) (k : B -> M C) : M C :=
  fun s => match m s with Some (b, s') => k b s' | None => None end.

Definition alloc (l : list A) : M ref := fun s => Some (length s, (s ++ [l])%list).
Definition contents (r : ref) : M (list A) :=
  fun s => match s !! r with Some l => Some (l, s) | None => None end.
Definition spread (r : ref) : M ref := bind (contents r) alloc.
Definition sortInPlace (compareFn : A -> A -> Z) (r : ref) : M ref :=
  fun s => match s !! r with
           | Some l => Some (r, <[r := sort compareFn l]> s)
           | None => None
           end.
Definition slice (n : nat) (r : ref) : M ref :=
  bind (contents r) (fun l => alloc (slice0 n l)).

(** [[...(a || [])].sort(compareFn).slice(0, n)], read back as a list for
    the final [map]. *)
Definition sortedTop (compareFn : A -> A -> Z) (n : nat) (a : option ref) : M (list A) :=
  bind (match a with Some r => ret r | None => alloc [] end) (fun src =>
  bind (spread src) (fun copy =>
  bind (sortInPlace compareFn copy) (fun sorted =>
  bind (slice n sorted) contents))).
End Arrays.

(** *** What the ranker promises *)

Section Ranking.
Context {A : Type}.
Variable key : A -> Z.

(** Descending order of keys. *)
Definition descending (a b : A) : Prop := key b <= key a.

(** [output] holds the [n] entries of [input] with the largest keys, largest
    first, entries of one key in their input order. *)
Definition ranked (n : nat) (input output : list A) : Prop :=
  length output = Nat.min n (length input) /\
  StronglySorted descending output /\
  output ⊆+ input /\
  (forall a b, a ∈ output -> b ∈ input -> key a < key b -> b ∈ output) /\
  forall v, filter (fun a => key a = v) output
            `prefix_of` filter (fun a => key a = v) input.

(** A projection: every ranked entry mapped, with its rank, to a datum. *)
Definition projection {B} (n : nat) (entry : nat -> A -> B)
    (input : list A) (output : list B) : Prop :=
  exists top, ranked n input top /\ output = imap entry top.

(** The outcome of deriving one projection from the array at [r]: the
    projection is returned, the arrays that existed before are as they
    were, and the data are ordered by their [volume] field. *)
Definition ranksInto {B} (n : nat) (entry : nat -> A -> B) (volume : B -> Z)
    (cats : list A) (r : nat) (s : list (list A))
    (outcome : option (list B * list (list A))) : Prop :=
  exists out s',
    outcome = Some (out, s') /\
    s `prefix_of` s' /\ s' !! r = Some cats /\
    projection n entry cats out /\
    (length out <= Nat.min n (length cats))%nat /\
    StronglySorted (fun x y => y <= x) (volume <$> out).
End Ranking.

Arguments M A B : clear implicits.

Abbreviation ref := nat (only parsing).
Abbreviation store A := (list (list A)) (only parsing).

Notation "'let*' x ':=' m 'in' k" := (bind m (fun x => k))
  (at level 10, x name, m at level 100, k at level 200, only parsing).

Definition CHART_COLORS : list string :=
  [ "#3b82f6"; "#10b981"; "#f59e0b"; "#ef4444"; "#8b5cf6";
    "#ec4899"; "#06b6d4"; "#84cc16"; "#f97316"; "#6366f1" ].

(** [s.length > limit ? s.substring(0, limit) + '...' : s] *)
Definition truncateName (limit : nat) (s : string) : string :=
  if (limit <? String.length s)%nat then substring 0 limit s ++ "..." else s.

(** [s] ends with [suffix]. *)
Definition endsWith (s suffix : string) : Prop := exists p, s = p ++ suffix.

(** [CHART_COLORS[index % CHART_COLORS.length]]; [None] is [undefined]. *)
Definition chartColor (index : nat) : option string :=
  CHART_COLORS !! (index mod length CHART_COLORS)%nat.

(** ** Monthly report widget, monthly-category-sales variant
    (src/components/dashboard/MonthlyReportCard.tsx) *)

Module Legacy.

Record CategorySalesData := {
  category : string;
  totalQuantity : Z;
  totalRevenue : Z;
  productCount : Z;
}.

(** [reportData.data] as it arrives: any field may be missing. Its
    [totalRevenue] is [report_totalRevenue] here, the name being taken by the
    category record. *)
Record MonthlyReportData := {
  month : option string;
  year : option Z;
  daysElapsed : option Z;
  totalDays : option Z;
  categories : option ref;
  totalQuantitySold : option Z;
  report_totalRevenue : option Z;
  totalProducts : option Z;
}.

(** The state of the query: [reportData], [isLoading], [error]. *)
Record Query := {
  reportData : option (option MonthlyReportData);
  isLoading : bool;
  queryError : bool;
}.

Record BarDatum := {
  bar_name : string;
  bar_fullName : string;
  bar_quantity : Z;
  bar_revenue : Z;
  bar_products : Z;
  bar_fill : option string;
}.

Record PieDatum := {
  pie_name : string;
  pie_value : Z;
  pie_revenue : Z;
  pie_color : option string;
}.

Record TableRow := {
  row_color : option string;
  row_category : string;
  row_products : Z;
  row_quantity : Z;
  row_revenue : string;
}.

Definition compareFn (a b : CategorySalesData) : Z :=
  totalQuantity b - totalQuantity a.

Definition barDatum (index : nat) (cat : CategorySalesData) : BarDatum :=
  {| bar_name := truncateName 12 (category cat);
     bar_fullName := category cat;
     bar_quantity := totalQuantity cat;
     bar_revenue := totalRevenue cat;
     bar_products := productCount cat;
     bar_fill := chartColor index |}.

Definition pieDatum (index : nat) (cat : CategorySalesData) : PieDatum :=
  {| pie_name := truncateName 15 (category cat);
     pie_value := totalQuantity cat;
     pie_revenue := totalRevenue cat;
     pie_color := chartColor index |}.

Definition tableRow (index : nat) (cat : CategorySalesData) : TableRow :=
  {| row_color := chartColor index;
     row_category := category cat;
     row_products := productCount cat;
     row_quantity := totalQuantity cat;
     row_revenue := formatNumber (number_of_Z (totalRevenue cat)) |}.

Definition barChartData (cats : option ref) : M CategorySalesData (list BarDatum) :=
  let* top := sortedTop compareFn 8 cats in ret (imap barDatum top).

Definition pieChartData (cats : option ref) : M CategorySalesData (list PieDatum) :=
  let* top := sortedTop compareFn 6 cats in ret (imap pieDatum top).

Definition tableRows (cats : option ref) : M CategorySalesData (list TableRow) :=
  let* top := sortedTop compareFn 10 cats in ret (imap tableRow top).

(** [formatNumber(field)] where the field may be missing: [Number(undefined)]
    is NaN. *)
Definition formatField (field : option Z) : string :=
  formatNumber (match field with Some z => number_of_Z z | None => nan end).

Inductive View :=
  | Skeleton
  | ErrorPanel
  | EmptyState (unitsBadge revenueBadge : string)
  | Charts (unitsBadge revenueBadge : string)
      (bars : list BarDatum) (pies : list PieDatum) (rows : list TableRow).

(** [reportData?.data || { ..., categories: [], ... }]; the date fields of the
    default come from the clock and are left open. *)
Definition report (q : Query) : M CategorySalesData MonthlyReportData :=
  match reportData q with
  | Some (Some data) => ret data
  | _ =>
      let* empty := alloc [] in
      ret {| month := None; year := None; daysElapsed := None; totalDays := None;
             categories := Some empty;
             totalQuantitySold := Some 0; report_totalRevenue := Some 0;
             totalProducts := Some 0 |}
  end.

(** One render of the component. [report.categories.length] and
    [report.totalQuantitySold.toLocaleString()] dereference their field
    without a guard. *)
Definition MonthlyReportCard (q : Query) : M CategorySalesData (result View) :=
  let* rep := report q in
  let* bars := barChartData (categories rep) in
  let* pies := pieChartData (categories rep) in
  if isLoading q then ret (Ok Skeleton)
  else if queryError q then ret (Ok ErrorPanel)
  else
    let unitsBadge := formatField (totalQuantitySold rep) in
    let revenueBadge := formatField (report_totalRevenue rep) in
    match categories rep with
    | None => ret (Throw TypeError)
    | Some r =>
        let* cats := contents r in
        if (length cats =? 0)%nat then ret (Ok (EmptyState unitsBadge revenueBadge))
        else
          let* rows := tableRows (categories rep) in
          match totalQuantitySold rep with
          | None => ret (Throw TypeError)
          | Some _ => ret (Ok (Charts unitsBadge revenueBadge bars pies rows))
          end
    end.

End Legacy.

(** ** Monthly report widget, enhanced-stats variant (src/unnamed/part_000) *)

Module Enhanced.

Record CategoryPerformance := {
  category : string;
  revenue : option Z;
  unitsSold : option Z;
}.

Record Performance := { categoryPerformance : option ref }.
Record Financial := { monthRevenue : option Z }.
Record StatsData := {
  performance : option Performance;
  financial : option Financial;
}.
Record EnhancedStats := { data : option StatsData }.

Record BarDatum := {
  bar_name : string;
  bar_fullName : string;
  bar_quantity : Z;
  bar_revenue : Z;
  bar_fill : option string;
}.

Record PieDatum := {
  pie_name : string;
  pie_value : Z;
  pie_revenue : Z;
  pie_color : option string;
}.

Record TableRow := {
  row_color : option string;
  row_category : string;
  row_quantity : Z;
  row_revenue : string;
}.

Definition compareFn (a b : CategoryPerformance) : Z :=
  or_else (unitsSold b) 0 - or_else (unitsSold a) 0.

Definition barDatum (index : nat) (cat : CategoryPerformance) : BarDatum :=
  {| bar_name := truncateName 12 (category cat);
     bar_fullName := category cat;
     bar_quantity := or_else (unitsSold cat) 0;
     bar_revenue := or_else (revenue cat) 0;
     bar_fill := chartColor index |}.

Definition pieDatum (index : nat) (cat : CategoryPerformance) : PieDatum :=
  {| pie_name := truncateName 15 (category cat);
     pie_value := or_else (unitsSold cat) 0;
     pie_revenue := or_else (revenue cat) 0;
     pie_color := chartColor index |}.

Definition tableRow (index : nat) (cat : CategoryPerformance) : TableRow :=
  {| row_color := chartColor index;
     row_category := category cat;
     row_quantity := or_else (unitsSold cat) 0;
     row_revenue := formatNumber (number_of_Z (or_else (revenue cat) 0)) |}.

(** [enhancedData?.data?.performance?.categoryPerformance || []] *)
Definition categoryPerformanceOf (enhancedData : option EnhancedStats)
  : M CategoryPerformance ref :=
  match ((enhancedData ≫= data) ≫= performance) ≫= categoryPerformance with
  | Some r => ret r
  | None => alloc []
  end.

Definition totalQuantitySold (cats : list CategoryPerformance) : Z :=
  fold_left (fun sum cat => sum + or_else (unitsSold cat) 0) cats 0.

(** [enhancedData?.data?.financial?.monthRevenue || categoryPerformance.reduce(...)] *)
Definition totalRevenue (enhancedData : option EnhancedStats)
    (cats : list CategoryPerformance) : Z :=
  or_else (((enhancedData ≫= data) ≫= financial) ≫= monthRevenue)
    (fold_left (fun sum cat => sum + or_else (revenue cat) 0) cats 0).

Definition barChartData (r : ref) : M CategoryPerformance (list BarDatum) :=
  let* top := sortedTop compareFn 8 (Some r) in ret (imap barDatum top).

Definition pieChartData (r : ref) : M CategoryPerformance (list PieDatum) :=
  let* top := sortedTop compareFn 6 (Some r) in ret (imap pieDatum top).

Definition tableRows (r : ref) : M CategoryPerformance (list TableRow) :=
  let* top := sortedTop compareFn 10 (Some r) in ret (imap tableRow top).

Inductive View :=
  | Skeleton
  | ErrorPanel
  | EmptyState (unitsBadge revenueBadge : string)
  | Charts (unitsBadge revenueBadge : string)
      (bars : list BarDatum) (pies : list PieDatum) (rows : list TableRow)
      (footerUnits : Z) (footerRevenue : string).

Definition MonthlyReportCard (enhancedData : option EnhancedStats)
    (isLoading queryError : bool) : M CategoryPerformance View :=
  let* r := categoryPerformanceOf enhancedData in
  let* cats := contents r in
  let units := totalQuantitySold cats in
  let revenue := totalRevenue enhancedData cats in
  let* bars := barChartData r in
  let* pies := pieChartData r in
  if isLoading then ret Skeleton
  else if queryError then ret ErrorPanel
  else
    let unitsBadge := formatNumber (number_of_Z units) in
    let revenueBadge := formatNumber (number_of_Z revenue) in
    let* cats' := contents r in
    if (length cats' =? 0)%nat then ret (EmptyState unitsBadge revenueBadge)
    else
      let* rows := tableRows r in
      ret (Charts unitsBadge revenueBadge bars pies rows units revenueBadge).

End Enhanced.

(** ** Inventory log viewer (src/pages/InventoryLogs.tsx) *)

(** [String.prototype.toLowerCase] on code units up to U+00FF: the letters
    A-Z and the accented capitals U+00C0-U+00DE (except the multiplication
    sign U+00D7) move up by 32; every other code unit is unchanged. *)
Definition lowerChar (c : ascii) : ascii :=
  let n := N_of_ascii c in
  if ((65 <=? n) && (n <=? 90) || (192 <=? n) && (n <=? 222) && negb (n =? 215))%N
  then ascii_of_N (n + 32)
  else c.

Fixpoint toLowerCase (s : string) : string :=
  match s with
  | EmptyString => EmptyString
  | String c s' => String (lowerChar c) (toLowerCase s')
  end.

Inductive Icon :=
  | ShoppingCart | Truck | RefreshCw | RotateCcw | Package
  | TrendingUp | TrendingDown.

Record LogTypeStyles := {
  icon : Icon;
  color : string;
  bgColor : string;
}.

(** What JSON can put where the interface promises a string: the string, or
    [undefined] when the field is missing, [null], a boolean, a number, an
    array or an object. *)
Inductive Value :=
  | Undefined
  | Null
  | Boolean (b : bool)
  | Number (x : float)
  | Str (s : string)
  | Array
  | Object.

(** [type.toLowerCase()] raises unless [type] is a string: [undefined] and
    [null] have no properties, and on the other values [toLowerCase] is not a
    function. *)
Definition getLogTypeStyles (type : Value) : result LogTypeStyles :=
  match type with
  | Undefined | Null | Boolean _ | Number _ | Array | Object => Throw TypeError
  | Str type =>
      let t := toLowerCase type in
      if String.eqb t "sale" then
        Ok {| icon := ShoppingCart;
              color := "bg-red-100 text-red-700 dark:bg-red-900/30 dark:text-red-400";
              bgColor := "border-l-red-500" |}
      else if String.eqb t "purchase" then
        Ok {| icon := Truck;
              color := "bg-green-100 text-green-700 dark:bg-green-900/30 dark:text-green-400";
              bgColor := "border-l-green-500" |}
      else if String.eqb t "adjustment" then
        Ok {| icon := RefreshCw;
              color := "bg-blue-100 text-blue-700 dark:bg-blue-900/30 dark:text-blue-400";
              bgColor := "border-l-blue-500" |}
      else if String.eqb t "return" then
        Ok {| icon := RotateCcw;
              color := "bg-purple-100 text-purple-700 dark:bg-purple-900/30 dark:text-purple-400";
              bgColor := "border-l-purple-500" |}
      else
        Ok {| icon := Package;
              color := "bg-gray-100 text-gray-700 dark:bg-gray-900/30 dark:text-gray-400";
              bgColor := "border-l-gray-500" |}
  end.

Record InventoryLog := {
  id : Z;
  productId : Z;
  productName : string;
  productSku : string;
  type : Value;
  quantity : Z;
  balanceBefore : float;
  balanceAfter : float;
  reference : string;
  reason : string;
  condition : string;
  createdAt : string;
}.

Record Pagination := {
  currentPage : Z;
  totalPages : Z;
  totalItems : Z;
  itemsPerPage : Z;
}.

Definition defaultPagination : Pagination :=
  {| currentPage := 1; totalPages := 1; totalItems := 0; itemsPerPage := 20 |}.

(** What one entry of [logs.map(...)] shows. *)
Record LogCard := {
  card_styles : LogTypeStyles;
  card_title : string;
  card_ref : option string;
  card_deltaIcon : Icon;
  card_deltaColor : string;
  card_deltaText : string;
  card_balances : float * float;
}.

Definition renderLog (log : InventoryLog) : result LogCard :=
  match getLogTypeStyles (type log) with
  | Throw e => Throw e
  | Ok typeStyles =>
      let quantityChange := (balanceAfter log - balanceBefore log)%float in
      let isPositive := (0 <=? quantityChange)%float in
      Ok {| card_styles := typeStyles;
            card_title := if String.eqb (reason log) "" then reference log else reason log;
            card_ref :=
              if String.eqb (reference log) "" || String.eqb (reason log) ""
              then None else Some (reference log);
            card_deltaIcon := if isPositive then TrendingUp else TrendingDown;
            card_deltaColor :=
              if isPositive then "text-green-600 dark:text-green-400"
              else "text-red-600 dark:text-red-400";
            card_deltaText :=
              (if isPositive then "+" else "") ++ toString quantityChange;
            card_balances := (balanceBefore log, balanceAfter log) |}
  end.

Fixpoint renderLogs (logs : list InventoryLog) : result (list LogCard) :=
  match logs with
  | [] => Ok []
  | log :: rest =>
      match renderLog log with
      | Throw e => Throw e
      | Ok card =>
          match renderLogs rest with
          | Throw e => Throw e
          | Ok cards => Ok (card :: cards)
          end
      end
  end.

(** *** The fetch life cycle *)

Inductive Toast := ErrorToast (description : string).

(** [data.data] of a response body. *)
Record Payload := {
  payload_logs : option (list InventoryLog);
  payload_pagination : option Pagination;
}.

(** The parsed body [data]: JSON [null], or an object with a truthy or falsy
    [success] and an optional [data] member. *)
Inductive Body :=
  | BodyNull
  | BodyObject (success : bool) (data : option Payload).

(** How [await fetch(...)] followed by [await response.json()] ends. The HTTP
    status is carried along; [fetchLogs] never reads it. *)
Inductive Response :=
  | FetchRejected
  | JsonRejected (status : Z)
  | Json (status : Z) (body : Body).

Record Request := {
  req_productId : string;
  req_page : Z;
}.

Record State := {
  selectedProductId : string;
  logs : list InventoryLog;
  loading : bool;
  pagination : Pagination;
  toasts : list Toast;
  inflight : list Request;
}.

Definition initialState : State :=
  {| selectedProductId := ""; logs := []; loading := false;
     pagination := defaultPagination; toasts := []; inflight := [] |}.

Definition setLogs (l : list InventoryLog) (st : State) : State :=
  {| selectedProductId := selectedProductId st; logs := l; loading := loading st;
     pagination := pagination st; toasts := toasts st; inflight := inflight st |}.

Definition setPagination (p : Pagination) (st : State) : State :=
  {| selectedProductId := selectedProductId st; logs := logs st; loading := loading st;
     pagination := p; toasts := toasts st; inflight := inflight st |}.

Definition setLoading (b : bool) (st : State) : State :=
  {| selectedProductId := selectedProductId st; logs := logs st; loading := b;
     pagination := pagination st; toasts := toasts st; inflight := inflight st |}.

Definition setSelectedProductId (p : string) (st : State) : State :=
  {| selectedProductId := p; logs := logs st; loading := loading st;
     pagination := pagination st; toasts := toasts st; inflight := inflight st |}.

Definition toast (t : Toast) (st : State) : State :=
  {| selectedProductId := selectedProductId st; logs := logs st; loading := loading st;
     pagination := pagination st; toasts := (toasts st ++ [t])%list; inflight := inflight st |}.

Definition setInflight (l : list Request) (st : State) : State :=
  {| selectedProductId := selectedProductId st; logs := logs st; loading := loading st;
     pagination := pagination st; toasts := toasts st; inflight := l |}.

(** [fetchLogs] up to its first [await]: the guard, [setLoading(true)] and the
    request leaving. *)
Definition fetchLogs_start (productId : string) (page : Z) (st : State) : State :=
  if String.eqb productId "" then st
  else
    let st := setLoading true st in
    setInflight (inflight st ++ [{| req_productId := productId; req_page := page |}])%list st.

(** The body of the [try] once the response is there: [Throw] stands for the
    exception that the [catch] receives. *)
Definition fetchLogs_try (r : Response) (st : State) : result State :=
  match r with
  | FetchRejected => Throw TypeError
  | JsonRejected _ => Throw TypeError
  | Json _ BodyNull => Throw TypeError
  | Json _ (BodyObject success data) =>
      if success then
        match data with
        | None => Throw TypeError
        | Some d =>
            let st := setLogs (default [] (payload_logs d)) st in
            Ok (setPagination (default defaultPagination (payload_pagination d)) st)
        end
      else Ok st
  end.

(** The responses on which the [try] raises, and those it lets pass without
    committing anything. *)
Definition raises (r : Response) : bool :=
  match r with
  | FetchRejected | JsonRejected _ | Json _ BodyNull
  | Json _ (BodyObject true None) => true
  | _ => false
  end.

Definition declined (r : Response) : bool :=
  match r with
  | Json _ (BodyObject false _) => true
  | _ => false
  end.

(** [fetchLogs] from the response on: [try], [catch], [finally]. *)
Definition fetchLogs_resume (r : Response) (st : State) : State :=
  let st :=
    match fetchLogs_try r st with
    | Ok st' => st'
    | Throw _ => toast (ErrorToast "Failed to load inventory logs") st
    end in
  setLoading false st.

Fixpoint removeRequest (q : Request) (l : list Request) : option (list Request) :=
  match l with
  | [] => None
  | q' :: l' =>
      if String.eqb (req_productId q) (req_productId q') && (req_page q =? req_page q')
      then Some l'
      else match removeRequest q l' with
           | Some l'' => Some (q' :: l'')
           | None => None
           end
  end.

(** What can happen to the mounted page. *)
Inductive Event :=
  | Select (productId : string)
  | Refresh
  | PreviousPage
  | NextPage
  | Resolve (q : Request) (r : Response).

Definition paginationShown (st : State) : bool :=
  negb (String.eqb (selectedProductId st) "") && negb (loading st)
  && negb (length (logs st) =? 0)%nat && (1 <? totalPages (pagination st)).

Definition step (e : Event) (st : State) : State :=
  match e with
  | Select productId =>
      if String.eqb productId (selectedProductId st) then st
      else
        let st := setSelectedProductId productId st in
        if String.eqb productId "" then st else fetchLogs_start productId 1 st
  | Refresh =>
      if negb (String.eqb (selectedProductId st) "") && negb (loading st)
      then fetchLogs_start (selectedProductId st) (currentPage (pagination st)) st
      else st
  | PreviousPage =>
      if paginationShown st && negb (currentPage (pagination st) <=? 1)
      then fetchLogs_start (selectedProductId st) (currentPage (pagination st) - 1) st
      else st
  | NextPage =>
      if paginationShown st
         && negb (totalPages (pagination st) <=? currentPage (pagination st))
      then fetchLogs_start (selectedProductId st) (currentPage (pagination st) + 1) st
      else st
  | Resolve q r =>
      match removeRequest q (inflight st) with
      | Some rest => fetchLogs_resume r (setInflight rest st)
      | None => st
      end
  end.

Definition run (events : list Event) (st : State) : State :=
  fold_left (fun st e => step e st) events st.

(** ** Sample data *)

Definition catA : Legacy.CategorySalesData :=
  {| Legacy.category := "A"; Legacy.totalQuantity := 100;
     Legacy.totalRevenue := 500; Legacy.productCount := 3 |}.

Definition catB : Legacy.CategorySalesData :=
  {| Legacy.category := "B"; Legacy.totalQuantity := 300;
     Legacy.totalRevenue := 200; Legacy.productCount := 1 |}.

Definition perfA : Enhanced.CategoryPerformance :=
  {| Enhanced.category := "A"; Enhanced.revenue := Some 500; Enhanced.unitsSold := Some 100 |}.

Definition perfB : Enhanced.CategoryPerformance :=
  {| Enhanced.category := "B"; Enhanced.revenue := Some 200; Enhanced.unitsSold := Some 300 |}.

Definition catEtc : Legacy.CategorySalesData :=
  {| Legacy.category := "Etc..."; Legacy.totalQuantity := 5;
     Legacy.totalRevenue := 50; Legacy.productCount := 1 |}.

Definition saleStyles : LogTypeStyles :=
  {| icon := ShoppingCart;
     color := "bg-red-100 text-red-700 dark:bg-red-900/30 dark:text-red-400";
     bgColor := "border-l-red-500" |}.

Definition defaultStyles : LogTypeStyles :=
  {| icon := Package;
     color := "bg-gray-100 text-gray-700 dark:bg-gray-900/30 dark:text-gray-400";
     bgColor := "border-l-gray-500" |}.

(** A successful response whose [data] has every field but [categories]. *)
Definition reportWithoutCategories : Legacy.Query :=
  {| Legacy.reportData :=
       Some (Some {| Legacy.month := Some "January"; Legacy.year := Some 2026;
                     Legacy.daysElapsed := Some 2; Legacy.totalDays := Some 31;
                     Legacy.categories := None;
                     Legacy.totalQuantitySold := Some 0;
                     Legacy.report_totalRevenue := Some 0;
                     Legacy.totalProducts := Some 0 |});
     Legacy.isLoading := false;
     Legacy.queryError := false |}.

Definition statsWith (r : option ref) (monthRevenue : option Z) : option Enhanced.EnhancedStats :=
  Some {| Enhanced.data :=
            Some {| Enhanced.performance := Some {| Enhanced.categoryPerformance := r |};
                    Enhanced.financial := Some {| Enhanced.monthRevenue := monthRevenue |} |} |}.

Definition sampleLog (before after qty : Z) : InventoryLog :=
  {| id := 7; productId := 1; productName := "Widget"; productSku := "W1";
     type := Str "sale"; quantity := qty;
     balanceBefore := number_of_Z before; balanceAfter := number_of_Z after;
     reference := "INV-7"; reason := ""; condition := "new";
     createdAt := "2026-01-02T10:00:00Z" |}.

Definition withQuantity (q : Z) (log : InventoryLog) : InventoryLog :=
  {| id := id log; productId := productId log; productName := productName log;
     productSku := productSku log; type := type log; quantity := q;
     balanceBefore := balanceBefore log; balanceAfter := balanceAfter log;
     reference := reference log; reason := reason log; condition := condition log;
     createdAt := createdAt log |}.

Definition failedToLoad : Toast := ErrorToast "Failed to load inventory logs".

Definition okBody (l : list InventoryLog) (p : Pagination) : Body :=
  BodyObject true (Some {| payload_logs := Some l; payload_pagination := Some p |}).

Definition showing (l : list InventoryLog) : State :=
  {| selectedProductId := "1"; logs := l; loading := true;
     pagination := defaultPagination; toasts := [];
     inflight := [] |}.

Definition request (productId : string) (page : Z) : Request :=
  {| req_productId := productId; req_page := page |}.

Definition logOf (product : Z) : InventoryLog :=
  {| id := product; productId := product; productName := "Widget"; productSku := "W";
     type := Str "sale"; quantity := 1;
     balanceBefore := 1%float; balanceAfter := 0%float;
     reference := ""; reason := ""; condition := ""; createdAt := "" |}.

(** The user selects product 1, then product 2; the response for product 2
    arrives first, the one for product 1 after it. *)
Definition staleTrace : list Event :=
  [ Select "1"; Select "2";
    Resolve (request "2" 1) (Json 200 (okBody [logOf 2] defaultPagination));
    Resolve (request "1" 1) (Json 200 (okBody [logOf 1] defaultPagination)) ].



(** ** Inventory log viewer: the product catalog and the page *)

(** [s.startsWith(t)] and [s.includes(t)]. *)
Fixpoint startsWith (s t : string) {struct t} : bool :=
  match t, s with
  | EmptyString, _ => true
  | String _ _, EmptyString => false
  | String c t', String d s' => Ascii.eqb c d && startsWith s' t'
  end.

Fixpoint includes (s t : string) : bool :=
  startsWith s t
  || match s with
     | EmptyString => false
     | String _ s' => includes s' t
     end.

(** A product of the catalog. The catalog is untyped in the source: the
    fields read through [?.] or [||] may be missing. *)
Record Product := {
  product_id : Z;
  product_name : option string;
  product_sku : option string;
  product_category : option string;
  product_stock : option Z;
  product_minStock : option Z;
}.

(** [p.name?.toLowerCase().includes(term) || p.sku?.toLowerCase().includes(term)] *)
Definition matchesTerm (term : string) (p : Product) : bool :=
  match product_name p with
  | Some name => includes (toLowerCase name) term
  | None => false
  end
  || match product_sku p with
     | Some sku => includes (toLowerCase sku) term
     | None => false
     end.

Definition filteredProducts (products : list Product) (searchTerm : string)
  : list Product :=
  if String.eqb searchTerm "" then products
  else
    let term := toLowerCase searchTerm in
    List.filter (matchesTerm term) products.

(** Whether a field (name or SKU) of the product contains the term, case
    ignored. *)
Definition fieldContains (p : Product) (t : string) : Prop :=
  exists field a b,
    (product_name p = Some field \/ product_sku p = Some field) /\
    toLowerCase field = a ++ toLowerCase t ++ b.

(** [products.find(p => p.id.toString() === selectedProductId)] *)
Definition selectedProduct (products : list Product) (selectedProductId : string)
  : option Product :=
  List.find (fun p => String.eqb (string_of_Z (product_id p)) selectedProductId)
    products.

(** The page: the catalog, the search box and the log viewer's state. *)
Record Page := {
  products : list Product;
  productsLoading : bool;
  searchTerm : string;
  viewer : State;
}.

Definition initialPage : Page :=
  {| products := []; productsLoading := true; searchTerm := "";
     viewer := initialState |}.

Definition setProducts (l : list Product) (page : Page) : Page :=
  {| products := l; productsLoading := productsLoading page;
     searchTerm := searchTerm page; viewer := viewer page |}.

Definition setProductsLoading (b : bool) (page : Page) : Page :=
  {| products := products page; productsLoading := b;
     searchTerm := searchTerm page; viewer := viewer page |}.

Definition setSearchTerm (t : string) (page : Page) : Page :=
  {| products := products page; productsLoading := productsLoading page;
     searchTerm := t; viewer := viewer page |}.

Definition setViewer (st : State) (page : Page) : Page :=
  {| products := products page; productsLoading := productsLoading page;
     searchTerm := searchTerm page; viewer := st |}.

(** What [await productsApi.getAll()] gives: a rejection, or a response that
    may be [undefined], may lack [data], and whose [data] may lack
    [products]. *)
Record ProductsData := { data_products : option (list Product) }.
Record ProductsResponse := { response_data : option ProductsData }.
Inductive ProductsOutcome :=
  | ProductsRejected
  | ProductsResolved (response : option ProductsResponse).

(** [fetchProducts] up to its [await], and from the response on. *)
Definition fetchProducts_start (page : Page) : Page :=
  setProductsLoading true page.

Definition fetchProducts_resume (o : ProductsOutcome) (page : Page) : Page :=
  let failed :=
    setViewer (toast (ErrorToast "Failed to load products") (viewer page)) page in
  let page :=
    match o with
    | ProductsRejected => failed
    | ProductsResolved None => failed
    | ProductsResolved (Some response) =>
        match response_data response ≫= data_products with
        | Some l => setProducts l page
        | None => page
        end
    end in
  setProductsLoading false page.

(** *** What the page shows *)

Record DropdownItem := {
  item_value : string;
  item_name : option string;
  item_sku : option string;
}.

Definition dropdownItem (product : Product) : DropdownItem :=
  {| item_value := string_of_Z (product_id product);
     item_name := product_name product;
     item_sku := product_sku product |}.

Record ProductInfo := {
  info_name : option string;
  info_sku : option string;
  info_category : option string;
  info_stock : Z;
  info_minStock : Z;
}.

Definition productInfo (p : Product) : ProductInfo :=
  {| info_name := product_name p; info_sku := product_sku p;
     info_category := product_category p;
     info_stock := or_else (product_stock p) 0;
     info_minStock := or_else (product_minStock p) 0 |}.

(** The entry carries a string where its type should be. *)
Definition typed (log : InventoryLog) : Prop := exists t, type log = Str t.

Record Pager := {
  pager_page : Z;
  pager_total : Z;
  previousDisabled : bool;
  nextDisabled : bool;
}.

Inductive LogsSection :=
  | SelectPrompt
  | Spinner
  | NoActivity (entries : Z)
  | LogList (entries : Z) (cards : list LogCard) (pager : option Pager).

Definition pagerOf (p : Pagination) : option Pager :=
  if 1 <? totalPages p then
    Some {| pager_page := currentPage p; pager_total := totalPages p;
            previousDisabled := currentPage p <=? 1;
            nextDisabled := totalPages p <=? currentPage p |}
  else None.

(** The logs section of the page. *)
Definition logsSection (st : State) : result LogsSection :=
  if String.eqb (selectedProductId st) "" then Ok SelectPrompt
  else if loading st then Ok Spinner
  else if (length (logs st) =? 0)%nat then Ok (NoActivity (totalItems (pagination st)))
  else
    match renderLogs (logs st) with
    | Throw e => Throw e
    | Ok cards =>
        Ok (LogList (totalItems (pagination st)) cards (pagerOf (pagination st)))
    end.

Record PageView := {
  view_placeholder : string;
  view_items : list DropdownItem;
  view_noProductsFound : bool;
  view_info : option ProductInfo;
  view_logs : LogsSection;
}.

(** One render of the page. *)
Definition InventoryLogs (page : Page) : result PageView :=
  let filtered := filteredProducts (products page) (searchTerm page) in
  let selected := selectedProduct (products page) (selectedProductId (viewer page)) in
  match logsSection (viewer page) with
  | Throw e => Throw e
  | Ok section =>
      Ok {| view_placeholder :=
              if productsLoading page then "Loading products..." else "Select a product";
            view_items := map dropdownItem filtered;
            view_noProductsFound := (length filtered =? 0)%nat;
            view_info := option_map productInfo selected;
            view_logs := section |}
  end.

(** A product that carries only an id and a name. *)
Definition productNamed (i : Z) (name : string) (sku : string) : Product :=
  {| product_id := i; product_name := Some name; product_sku := Some sku;
     product_category := None; product_stock := None; product_minStock := None |}.

(** *** What the monthly report shows, the store left aside *)

(** The data of a projection carry the palette colour of their rank, all
    defined and no two alike. *)
Definition colouredApart {B} (color : B -> option string) (out : list B) : Prop :=
  NoDup (color <$> out) /\
  forall i b, out !! i = Some b -> color b = chartColor i /\ is_Some (color b).

(** The view of the monthly-category-sales widget for [data] whose category
    array holds [cats]. *)
Definition legacyView (q : Legacy.Query) (data : Legacy.MonthlyReportData)
    (cats : list Legacy.CategorySalesData) : result Legacy.View :=
  let top := sort Legacy.compareFn cats in
  let unitsBadge := Legacy.formatField (Legacy.totalQuantitySold data) in
  let revenueBadge := Legacy.formatField (Legacy.report_totalRevenue data) in
  if Legacy.isLoading q then Ok Legacy.Skeleton
  else if Legacy.queryError q then Ok Legacy.ErrorPanel
  else if (length cats =? 0)%nat then Ok (Legacy.EmptyState unitsBadge revenueBadge)
  else
    match Legacy.totalQuantitySold data with
    | None => Throw TypeError
    | Some _ =>
        Ok (Legacy.Charts unitsBadge revenueBadge
              (imap Legacy.barDatum (take 8 top))
              (imap Legacy.pieDatum (take 6 top))
              (imap Legacy.tableRow (take 10 top)))
    end.

(** The view of the enhanced-stats widget when the category list is [cats]. *)
Definition enhancedView (enhancedData : option Enhanced.EnhancedStats)
    (isLoading queryError : bool) (cats : list Enhanced.CategoryPerformance)
  : Enhanced.View :=
  let top := sort Enhanced.compareFn cats in
  let units := Enhanced.totalQuantitySold cats in
  let unitsBadge := formatNumber (number_of_Z units) in
  let revenueBadge :=
    formatNumber (number_of_Z (Enhanced.totalRevenue enhancedData cats)) in
  if isLoading then Enhanced.Skeleton
  else if queryError then Enhanced.ErrorPanel
  else if (length cats =? 0)%nat then Enhanced.EmptyState unitsBadge revenueBadge
  else
    Enhanced.Charts unitsBadge revenueBadge
      (imap Enhanced.barDatum (take 8 top))
      (imap Enhanced.pieDatum (take 6 top))
      (imap Enhanced.tableRow (take 10 top))
      units revenueBadge.

(** A report whose category list is there but whose [totalQuantitySold] is
    not. *)
Definition reportWithoutTotal : Legacy.Query :=
  {| Legacy.reportData :=
       Some (Some {| Legacy.month := Some "January"; Legacy.year := Some 2026;
                     Legacy.daysElapsed := Some 2; Legacy.totalDays := Some 31;
                     Legacy.categories := Some 0%nat;
                     Legacy.totalQuantitySold := None;
                     Legacy.report_totalRevenue := Some 700;
                     Legacy.totalProducts := Some 4 |});
     Legacy.isLoading := false;
     Legacy.queryError := false |}.

(** An entry whose type is a number, and one without a type. *)
Definition numberedLog : InventoryLog :=
  {| id := 8; productId := 1; productName := "Widget"; productSku := "W1";
     type := Number 3; quantity := 1;
     balanceBefore := 5%float; balanceAfter := 6%float;
     reference := "INV-8"; reason := ""; condition := "new";
     createdAt := "2026-01-02T11:00:00Z" |}.

(** The viewer showing [l] for product 1, nothing in flight. *)
Definition loaded (l : list InventoryLog) : State :=
  {| selectedProductId := "1"; logs := l; loading := false;
     pagination := defaultPagination; toasts := []; inflight := [] |}.

(** A well-formed report over the category array at address 0. *)
Definition reportOk : Legacy.Query :=
  {| Legacy.reportData :=
       Some (Some {| Legacy.month := Some "January"; Legacy.year := Some 2026;
                     Legacy.daysElapsed := Some 2; Legacy.totalDays := Some 31;
                     Legacy.categories := Some 0%nat;
                     Legacy.totalQuantitySold := Some 400;
                     Legacy.report_totalRevenue := Some 700;
                     Legacy.totalProducts := Some 4 |});
     Legacy.isLoading := false;
     Legacy.queryError := false |}.

(** The category list the enhanced-stats widget works on: the array that
    [enhancedData?.data?.performance?.categoryPerformance] points to, the
    empty list when any link of that chain is missing. *)
Definition categoryList (enhancedData : option Enhanced.EnhancedStats)
    (s : store Enhanced.CategoryPerformance)
  : option (list Enhanced.CategoryPerformance) :=
  match ((enhancedData ≫= Enhanced.data) ≫= Enhanced.performance)
        ≫= Enhanced.categoryPerformance with
  | Some r => s !! r
  | None => Some []
  end.

(** *** The buttons of the logs section *)

(** Whether the section shows the Refresh, Previous and Next buttons
    enabled. Refresh sits in the header of every section but the prompt and
    is disabled while loading; the pager is part of the list. *)
Definition refreshEnabled (section : LogsSection) : bool :=
  match section with
  | NoActivity _ | LogList _ _ _ => true
  | _ => false
  end.

Definition previousEnabled (section : LogsSection) : bool :=
  match section with
  | LogList _ _ (Some pager) => negb (previousDisabled pager)
  | _ => false
  end.

Definition nextEnabled (section : LogsSection) : bool :=
  match section with
  | LogList _ _ (Some pager) => negb (nextDisabled pager)
  | _ => false
  end.

(** What holds of the viewer's state after any sequence of events: every
    request in flight names a product, and the spinner is on only while a
    request is in flight. *)
Definition viewerInvariant (st : State) : Prop :=
  Forall (fun q => req_productId q <> "") (inflight st) /\
  (loading st = true -> inflight st <> []).

(** *** The formatter on whole numbers *)

(** Whether the formatter shows the whole number [n] as itself. *)
Definition shownExactly (n : Z) : bool :=
  String.eqb (formatNumber (number_of_Z n)) (string_of_Z n).
(** * Theorems *)

(** ** Magnitude formatter *)

Lemma toFixed_decimal (x : float) (f : nat) :
  decimalRange x = true -> toFixed x f = renderDecimals x f.
Proof.
  unfold decimalRange, toFixed, renderDecimals.
  destruct (Prim2SF x) as [z| | |s m e]; try discriminate; auto.
  intros H. apply negb_true_iff in H. now rewrite H.
Qed.

(** [nearest] is exact for an integral double and within half a unit of the
    last place otherwise, the upper neighbour on a tie. *)
Lemma nearest_closest (m : positive) (e : Z) (f : nat) :
  (0 <= e -> nearest m e f = Z.pos m * 2 ^ e * 10 ^ Z.of_nat f) /\
  (e < 0 ->
   - 2 ^ (- e) < 2 * (nearest m e f * 2 ^ (- e) - Z.pos m * 10 ^ Z.of_nat f)
   <= 2 ^ (- e)).
Proof.
  unfold nearest. split; intros He.
  - destruct (Z.leb_spec 0 e); [reflexivity|lia].
  - destruct (Z.leb_spec 0 e); [lia|].
    assert (Hb : 0 < 2 ^ (- e)) by (apply Z.pow_pos_nonneg; lia).
    set (b := 2 ^ (- e)) in *. set (a := Z.pos m * 10 ^ Z.of_nat f).
    replace (2 * Z.pos m * 10 ^ Z.of_nat f) with (2 * a) by (unfold a; lia).
    pose proof (Z.div_mod (2 * a + b) (2 * b) ltac:(lia)) as Hdm.
    pose proof (Z.mod_pos_bound (2 * a + b) (2 * b) ltac:(lia)) as Hmod.
    nia.
Qed.

Lemma length_append (s t : string) :
  String.length (s ++ t) = (String.length s + String.length t)%nat.
Proof. induction s as [|c s IH]; simpl; [done|by rewrite IH]. Qed.

Lemma length_zeros (k : nat) : String.length (zeros k) = k.
Proof. induction k as [|k IH]; simpl; [done|by rewrite IH]. Qed.

Lemma length_substring (a b : nat) (s : string) :
  (a + b <= String.length s)%nat -> String.length (substring a b s) = b.
Proof.
  revert b s. induction a as [|a IHa]; intros b s H.
  - revert s H. induction b as [|b IHb]; intros s H; destruct s as [|c s];
      simpl in *; try done; try lia. rewrite IHb; [done|lia].
  - destruct s as [|c s]; simpl in *; [lia|]. apply IHa. lia.
Qed.

(** With [f > 0] places, [fixed_digits] writes a point followed by exactly [f]
    characters, and at least one character before the point. *)
Lemma fixed_digits_places (n : Z) (f : nat) :
  exists ip fp, fixed_digits n (S f) = ip ++ "." ++ fp /\
    String.length fp = S f /\ (0 < String.length ip)%nat.
Proof.
  unfold fixed_digits.
  set (m := digits n).
  set (m' := if (String.length m <=? S f)%nat
             then zeros (S f + 1 - String.length m) ++ m else m).
  assert (Hlen : (S f < String.length m')%nat).
  { unfold m'. destruct (Nat.leb_spec (String.length m) (S f)); [|lia].
    rewrite length_append, length_zeros. lia. }
  eexists _, _. split; [reflexivity|].
  split; [apply length_substring; lia|].
  rewrite length_substring; lia.
Qed.

Lemma renderDecimals_places (x : float) (f : nat) :
  exists sign ip fp, renderDecimals x (S f) = sign ++ ip ++ "." ++ fp /\
    (sign = "" \/ sign = "-") /\ String.length fp = S f /\ (0 < String.length ip)%nat.
Proof.
  unfold renderDecimals.
  destruct (Prim2SF x) as [z| | |s m e].
  1-3: destruct (fixed_digits_places 0 f) as (ip & fp & -> & ?);
       exists "", ip, fp; auto.
  destruct (fixed_digits_places (nearest m e (S f)) f) as (ip & fp & -> & ?).
  exists (if s then "-" else ""), ip, fp. split; [done|].
  split; [destruct s; auto|done].
Qed.

(** C1 (as stated, refuted): at the double [1e28] the first bracket applies,
    yet the result is ["1e+21 Cr"], not the quotient written with two decimal
    places. *)
Lemma formatNumber_1e28_exponent :
  (10000000 <=? ten_pow_28)%float = true /\
  formatNumber ten_pow_28 = "1e+21 Cr" /\
  formatNumber_spec ten_pow_28 = "1000000000000000000000.00 Cr" /\
  formatNumber ten_pow_28 <> formatNumber_spec ten_pow_28.
Proof.
  repeat split; try (vm_compute; reflexivity).
  vm_compute. discriminate.
Qed.

(** C1 (amended): NaN gives ["0"]; otherwise the brackets 10,000,000 /
    100,000 / 1,000 are tried from the top and the first that the value
    reaches wins, and whenever the number handed to [toFixed] is finite and
    below 10^21 in magnitude the result is that quotient written in decimal
    with 2, 2, 1 or (below every threshold) 0 places, followed by [" Cr"],
    [" Lac"], ["K"] or nothing. In particular 0, 999, 1500, 150000, 15000000
    and NaN give ["0"], ["999"], ["1.5K"], ["1.50 Lac"], ["1.50 Cr"], ["0"]. *)
Theorem formatNumber_refines_spec (value : float) :
  (is_nan value = true \/ decimalRange (scaled value) = true ->
   formatNumber value = formatNumber_spec value) /\
  StronglySorted (fun a b => (b.1.1 <? a.1.1)%float = true) brackets /\
  formatNumber 0 = "0" /\
  formatNumber 999 = "999" /\
  formatNumber 1500 = "1.5K" /\
  formatNumber 150000 = "1.50 Lac" /\
  formatNumber 15000000 = "1.50 Cr" /\
  formatNumber nan = "0".
Proof.
  split; [|split; [repeat constructor|repeat split; vm_compute; reflexivity]].
  unfold formatNumber, formatNumber_spec, scaled, bracketOf, brackets. simpl.
  destruct (is_nan value); [reflexivity|].
  intros [H|H]; [discriminate|]. revert H.
  destruct (10000000 <=? value)%float; [intros H; now rewrite toFixed_decimal|].
  destruct (100000 <=? value)%float; [intros H; now rewrite toFixed_decimal|].
  destruct (1000 <=? value)%float; [intros H; now rewrite toFixed_decimal|].
  intros H. now apply toFixed_decimal.
Qed.

Lemma formatNumber_refines_spec_witness :
  formatNumber 15000000 = formatNumber_spec 15000000.
Proof.
  apply (proj1 (formatNumber_refines_spec 15000000)).
  right. vm_compute. reflexivity.
Defined.

(** ** Sorting by a numeric key *)

Section SortByKey.
Context {A : Type}.
Variable key : A -> Z.
Variable compareFn : A -> A -> Z.
Hypothesis compareFn_key : forall a b, compareFn a b = key b - key a.

Lemma insert_Permutation x l : insert compareFn x l ≡ₚ x :: l.
Proof.
  induction l as [|y l IH]; simpl; [done|].
  destruct (0 <? compareFn x y); [|done].
  rewrite IH. apply Permutation_swap.
Qed.

Lemma sort_Permutation l : sort compareFn l ≡ₚ l.
Proof.
  induction l as [|x l IH]; simpl; [done|].
  rewrite insert_Permutation. by rewrite IH.
Qed.

Lemma sort_length l : length (sort compareFn l) = length l.
Proof. by rewrite sort_Permutation. Qed.

Lemma insert_descending x l :
  StronglySorted (descending key) l -> StronglySorted (descending key) (insert compareFn x l).
Proof.
  induction 1 as [|y l Hl IH Hy]; simpl.
  - repeat constructor.
  - rewrite compareFn_key. destruct (Z.ltb_spec 0 (key y - key x)).
    + constructor; [exact IH|].
      rewrite insert_Permutation. constructor; [unfold descending; lia|exact Hy].
    + constructor; [by constructor|].
      constructor; [unfold descending; lia|].
      eapply Forall_impl; [exact Hy|]. unfold descending. intros; lia.
Qed.

Lemma sort_descending l : StronglySorted (descending key) (sort compareFn l).
Proof.
  induction l as [|x l IH]; simpl; [constructor|by apply insert_descending].
Qed.

(** Stability: entries of one key keep their order. *)
Lemma insert_stable v x l :
  filter (fun a => key a = v) (insert compareFn x l)
  = filter (fun a => key a = v) (x :: l).
Proof.
  induction l as [|y l IH]; simpl; [done|].
  rewrite compareFn_key. destruct (Z.ltb_spec 0 (key y - key x)); [|done].
  rewrite filter_cons, IH, !filter_cons.
  repeat case_decide; try done; lia.
Qed.

Lemma sort_stable v l :
  filter (fun a => key a = v) (sort compareFn l) = filter (fun a => key a = v) l.
Proof.
  induction l as [|x l IH]; simpl; [done|].
  by rewrite insert_stable, !filter_cons, IH.
Qed.

(** [sort] is the only outcome a stable sort can have: a list in descending
    order that keeps, for every key, the entries of that key in the order of
    [l] is [sort compareFn l]. *)
Lemma stable_sorted_unique l1 l2 :
  StronglySorted (descending key) l1 ->
  StronglySorted (descending key) l2 ->
  (forall v, filter (fun a => key a = v) l1 = filter (fun a => key a = v) l2) ->
  l1 = l2.
Proof.
  revert l2. induction l1 as [|x l1 IH]; intros l2 H1 H2 Hf.
  - destruct l2 as [|y l2]; [done|].
    specialize (Hf (key y)). by rewrite filter_nil, filter_cons_True in Hf.
  - destruct l2 as [|y l2].
    { specialize (Hf (key x)). by rewrite filter_cons_True, filter_nil in Hf. }
    apply StronglySorted_inv in H1 as [H1 Hx].
    apply StronglySorted_inv in H2 as [H2 Hy].
    assert (Hxy : key x <= key y).
    { assert (Hin : x ∈ filter (fun a => key a = key x) (y :: l2)).
      { rewrite <- Hf, filter_cons_True by done. left. }
      apply list_elem_of_filter in Hin as [_ Hin].
      apply elem_of_cons in Hin as [->|Hin]; [lia|].
      rewrite Forall_forall in Hy. by apply Hy. }
    assert (Hyx : key y <= key x).
    { assert (Hin : y ∈ filter (fun a => key a = key y) (x :: l1)).
      { rewrite Hf, filter_cons_True by done. left. }
      apply list_elem_of_filter in Hin as [_ Hin].
      apply elem_of_cons in Hin as [->|Hin]; [lia|].
      rewrite Forall_forall in Hx. by apply Hx. }
    assert (Hkey : key y = key x) by lia.
    assert (x = y) as <-.
    { specialize (Hf (key x)). rewrite !filter_cons_True in Hf by done.
      by injection Hf. }
    f_equal. apply IH; [done..|].
    intros v. specialize (Hf v). rewrite !filter_cons in Hf.
    case_decide; [by injection Hf|done].
Qed.

Lemma sort_unique l l' :
  StronglySorted (descending key) l' ->
  (forall v, filter (fun a => key a = v) l' = filter (fun a => key a = v) l) ->
  l' = sort compareFn l.
Proof.
  intros Hsorted Hstable. apply stable_sorted_unique; [done|apply sort_descending|].
  intros v. by rewrite Hstable, sort_stable.
Qed.

Lemma sorted_slice_ranked n l : ranked key n l (slice0 n (sort compareFn l)).
Proof.
  unfold ranked, slice0. repeat split.
  - by rewrite length_take, sort_length.
  - pose proof (sort_descending l) as H.
    rewrite <- (take_drop n (sort compareFn l)) in H.
    by apply StronglySorted_app_1_l in H.
  - rewrite <- (sort_Permutation l) at 2. apply sublist_submseteq, sublist_take.
  - intros a b Ha Hb Hlt.
    rewrite <- (sort_Permutation l), <- (take_drop n (sort compareFn l)) in Hb.
    apply elem_of_app in Hb as [Hb|Hb]; [done|].
    pose proof (sort_descending l) as H.
    rewrite <- (take_drop n (sort compareFn l)) in H.
    pose proof (StronglySorted_app_1_elem_of _ _ _ a b H Ha Hb) as Hab.
    unfold descending in Hab. lia.
  - intros v. rewrite <- (sort_stable v l).
    rewrite <- (take_drop n (sort compareFn l)) at 2.
    rewrite filter_app. by apply prefix_app_r.
Qed.

Lemma sortedTop_run n (s : store A) r l :
  s !! r = Some l ->
  sortedTop compareFn n (Some r) s
  = Some (slice0 n (sort compareFn l),
          (s ++ [sort compareFn l; slice0 n (sort compareFn l)])%list).
Proof.
  intros Hr. unfold sortedTop, spread, slice, sortInPlace, contents, alloc, bind, ret.
  rewrite Hr.
  rewrite lookup_app_r, Nat.sub_diag by lia. simpl.
  rewrite insert_app_r_alt, Nat.sub_diag by lia. simpl.
  rewrite lookup_app_r, Nat.sub_diag by lia. simpl.
  rewrite lookup_app_r; rewrite length_app; simpl; [|lia].
  rewrite Nat.sub_diag. simpl. by rewrite <- app_assoc.
Qed.

Lemma sortedTop_ranksInto {B} n (entry : nat -> A -> B) (volume : B -> Z)
    (s : store A) r l :
  (forall i a, volume (entry i a) = key a) ->
  s !! r = Some l ->
  ranksInto key n entry volume l r s
    ((let* top := sortedTop compareFn n (Some r) in ret (imap entry top)) s).
Proof.
  intros Hvol Hr. unfold bind, ret. rewrite (sortedTop_run n s r l Hr).
  pose proof (sorted_slice_ranked n l) as Hrk.
  eexists _, _. split; [reflexivity|].
  split; [by apply prefix_app_r|].
  split; [by apply lookup_app_l_Some|].
  split; [by eexists|].
  destruct Hrk as (Hlen & Hsorted & _).
  split; [rewrite length_imap; lia|].
  rewrite fmap_imap, (imap_ext _ (const key)), imap_const by (intros; apply Hvol).
  eapply StronglySorted_fmap; [|exact Hsorted]. auto.
Qed.
End SortByKey.

(** ** Category ranker *)

(** C2: in both variants of the widget, the bar, pie and table projections of
    the category array at [r] hold at most min(N, length) entries for N = 8, 6
    and 10, are the top entries by volume in descending order with entries of
    equal volume in their input order, and leave the input array (and every
    array that existed before) as it was. *)
Theorem category_ranker
    (s : store Legacy.CategorySalesData) (r : ref)
    (cats : list Legacy.CategorySalesData)
    (s' : store Enhanced.CategoryPerformance) (r' : ref)
    (cats' : list Enhanced.CategoryPerformance) :
  s !! r = Some cats ->
  s' !! r' = Some cats' ->
  (ranksInto Legacy.totalQuantity 8 Legacy.barDatum Legacy.bar_quantity cats r s
     (Legacy.barChartData (Some r) s) /\
   ranksInto Legacy.totalQuantity 6 Legacy.pieDatum Legacy.pie_value cats r s
     (Legacy.pieChartData (Some r) s) /\
   ranksInto Legacy.totalQuantity 10 Legacy.tableRow Legacy.row_quantity cats r s
     (Legacy.tableRows (Some r) s)) /\
  (let volume := fun c => or_else (Enhanced.unitsSold c) 0 in
   ranksInto volume 8 Enhanced.barDatum Enhanced.bar_quantity cats' r' s'
     (Enhanced.barChartData r' s') /\
   ranksInto volume 6 Enhanced.pieDatum Enhanced.pie_value cats' r' s'
     (Enhanced.pieChartData r' s') /\
   ranksInto volume 10 Enhanced.tableRow Enhanced.row_quantity cats' r' s'
     (Enhanced.tableRows r' s')).
Proof.
  intros Hr Hr'. split.
  - repeat split;
      apply (sortedTop_ranksInto Legacy.totalQuantity Legacy.compareFn); auto.
  - cbv zeta. repeat split;
      apply (sortedTop_ranksInto (fun c => or_else (Enhanced.unitsSold c) 0)
               Enhanced.compareFn); auto.
Qed.

Lemma category_ranker_witness :
  ranksInto Legacy.totalQuantity 8 Legacy.barDatum Legacy.bar_quantity
    [catA; catB] 0%nat [[catA; catB]]
    (Legacy.barChartData (Some 0%nat) [[catA; catB]]).
Proof.
  pose proof (category_ranker [[catA; catB]] 0%nat [catA; catB]
                [[perfA; perfB]] 0%nat [perfA; perfB]) as H.
  destruct H as [(Hbar & _) _]; [reflexivity | reflexivity | exact Hbar].
Defined.

(** Two categories A (100 units) and B (300 units): B is ranked first with the
    first palette colour, A second with the second, and 400 units in total. *)
Example ranker_two_categories :
  (exists s', Enhanced.barChartData 0%nat [[perfA; perfB]]
              = Some ([Enhanced.barDatum 0 perfB; Enhanced.barDatum 1 perfA], s')) /\
  Enhanced.bar_fill (Enhanced.barDatum 0 perfB) = Some "#3b82f6" /\
  Enhanced.bar_fill (Enhanced.barDatum 1 perfA) = Some "#10b981" /\
  Enhanced.totalQuantitySold [perfA; perfB] = 400.
Proof. repeat split. by eexists. Qed.

(** ** Display names *)

Lemma substring_prefix (n : nat) (s : string) :
  (n <= String.length s)%nat ->
  String.length (substring 0 n s) = n /\ exists rest, s = substring 0 n s ++ rest.
Proof.
  revert s. induction n as [|n IH]; intros s Hn.
  - destruct s; simpl; eauto.
  - destruct s as [|c s]; simpl in *; [lia|].
    destruct (IH s) as [Hlen [rest Hrest]]; [lia|].
    split; [by rewrite Hlen|]. exists rest. by rewrite <- Hrest.
Qed.

Lemma truncateName_endsWith (limit : nat) (s : string) :
  endsWith (truncateName limit s) "..."
  <-> (limit < String.length s)%nat \/ endsWith s "...".
Proof.
  unfold truncateName. destruct (Nat.ltb_spec limit (String.length s)).
  - split; [auto|]. intros _. by eexists.
  - split; [auto|]. intros [?|?]; [lia|done].
Qed.

(** C3 (as stated, refuted): a category named ["Etc..."] is six characters
    long, below both limits, and is displayed unchanged by the bar chart: the
    displayed name ends with the ellipsis marker although nothing was cut. *)
Lemma short_name_with_dots :
  (exists s', Legacy.barChartData (Some 0%nat) [[catEtc]]
              = Some ([Legacy.barDatum 0 catEtc], s')) /\
  Legacy.bar_name (Legacy.barDatum 0 catEtc) = "Etc..." /\
  endsWith (Legacy.bar_name (Legacy.barDatum 0 catEtc)) "..." /\
  ~ (12 < String.length (Legacy.category catEtc))%nat.
Proof.
  split; [by eexists|]. split; [reflexivity|].
  split; [by exists "Etc"|]. simpl. lia.
Qed.

(** C3 (amended): the bar chart shows a category name cut to 12 and the pie
    chart to 15 characters, the table shows it whole. A name longer than the
    limit is displayed as its first [limit] characters followed by ["..."];
    any other name is displayed as it is. So the displayed name ends with the
    ellipsis marker exactly when the name is longer than the limit or itself
    ends with the marker. *)
Theorem display_name (index : nat) (c : Legacy.CategorySalesData)
    (c' : Enhanced.CategoryPerformance) (limit : nat) (s : string) :
  (Legacy.bar_name (Legacy.barDatum index c) = truncateName 12 (Legacy.category c) /\
   Legacy.pie_name (Legacy.pieDatum index c) = truncateName 15 (Legacy.category c) /\
   Legacy.row_category (Legacy.tableRow index c) = Legacy.category c) /\
  (Enhanced.bar_name (Enhanced.barDatum index c') = truncateName 12 (Enhanced.category c') /\
   Enhanced.pie_name (Enhanced.pieDatum index c') = truncateName 15 (Enhanced.category c') /\
   Enhanced.row_category (Enhanced.tableRow index c') = Enhanced.category c') /\
  ((limit < String.length s)%nat ->
   truncateName limit s = substring 0 limit s ++ "..." /\
   String.length (substring 0 limit s) = limit /\
   exists rest, s = substring 0 limit s ++ rest) /\
  ((String.length s <= limit)%nat -> truncateName limit s = s) /\
  (endsWith (truncateName limit s) "..."
   <-> (limit < String.length s)%nat \/ endsWith s "...").
Proof.
  split; [done|]. split; [done|].
  split; [|split; [|apply truncateName_endsWith]].
  - intros Hlt. unfold truncateName.
    destruct (Nat.ltb_spec limit (String.length s)); [|lia].
    split; [done|]. apply substring_prefix. lia.
  - intros Hle. unfold truncateName.
    destruct (Nat.ltb_spec limit (String.length s)); [lia|done].
Qed.

Lemma display_name_witness :
  truncateName 12 "Plumbing Fixtures" = "Plumbing Fix..." /\
  truncateName 15 "Paint" = "Paint".
Proof.
  pose proof (display_name 0 catA perfA 12 "Plumbing Fixtures") as (_ & _ & H12 & _ & _).
  pose proof (display_name 0 catA perfA 15 "Paint") as (_ & _ & _ & H15 & _).
  split.
  - destruct H12 as [H _]; [simpl; lia|]. exact H.
  - apply H15. simpl. lia.
Defined.

(** ** Log type classifier *)

(** C4 (as stated, refuted): a missing type makes the classifier raise
    instead of returning the default descriptor. *)
Lemma getLogTypeStyles_undefined : getLogTypeStyles Undefined = Throw TypeError.
Proof. reflexivity. Qed.

(** C4 (amended): on every string the classifier returns a descriptor; two
    strings that differ only in case get the same one, so ["SALE"], ["sale"]
    and ["Sale"] all get the sale descriptor; a string that is none of the
    four recognised words in lower case, the empty string included, gets the
    default descriptor. *)
Theorem getLogTypeStyles_total (type type' : string) :
  (exists d, getLogTypeStyles (Str type) = Ok d) /\
  (toLowerCase type = toLowerCase type' ->
   getLogTypeStyles (Str type) = getLogTypeStyles (Str type')) /\
  getLogTypeStyles (Str "SALE") = Ok saleStyles /\
  getLogTypeStyles (Str "sale") = Ok saleStyles /\
  getLogTypeStyles (Str "Sale") = Ok saleStyles /\
  (toLowerCase type <> "sale" -> toLowerCase type <> "purchase" ->
   toLowerCase type <> "adjustment" -> toLowerCase type <> "return" ->
   getLogTypeStyles (Str type) = Ok defaultStyles) /\
  getLogTypeStyles (Str "") = Ok defaultStyles.
Proof.
  split.
  { unfold getLogTypeStyles.
    repeat match goal with |- context [if ?b then _ else _] => destruct b end; eauto. }
  split.
  { intros H. unfold getLogTypeStyles. by rewrite H. }
  do 3 (split; [reflexivity|]).
  split; [|reflexivity].
  intros H1 H2 H3 H4. unfold getLogTypeStyles.
  apply String.eqb_neq in H1, H2, H3, H4. by rewrite H1, H2, H3, H4.
Qed.

Lemma getLogTypeStyles_total_witness :
  getLogTypeStyles (Str "PURCHASE") = getLogTypeStyles (Str "Purchase") /\
  getLogTypeStyles (Str "transfer") = Ok defaultStyles.
Proof.
  pose proof (getLogTypeStyles_total "PURCHASE" "Purchase") as (_ & Hcase & _).
  pose proof (getLogTypeStyles_total "transfer" "transfer")
    as (_ & _ & _ & _ & _ & Hdefault & _).
  split.
  - apply Hcase. reflexivity.
  - apply Hdefault; simpl; discriminate.
Defined.

(** ** Responses of unexpected shape *)

(** C5 (the code at the failing input): with [data] present but without its
    [categories] list, both chart derivations of the monthly-category-sales
    widget fall back to the empty list, and the render then raises on
    [report.categories.length]. The other paths do fall back: a response
    without [data] renders the empty state in both variants, and a log
    response without [logs] and [pagination] commits the empty list and the
    default pagination. *)
Theorem MonthlyReportCard_missing_categories :
  (exists s', Legacy.barChartData None [] = Some ([], s')) /\
  (exists s', Legacy.pieChartData None [] = Some ([], s')) /\
  (exists s', Legacy.MonthlyReportCard reportWithoutCategories []
              = Some (Throw TypeError, s')) /\
  (exists s', Legacy.MonthlyReportCard
                {| Legacy.reportData := Some None; Legacy.isLoading := false;
                   Legacy.queryError := false |} []
              = Some (Ok (Legacy.EmptyState "0" "0"), s')) /\
  (exists s', Enhanced.MonthlyReportCard (Some {| Enhanced.data := None |}) false false []
              = Some (Enhanced.EmptyState "0" "0", s')) /\
  forall st,
    let st' := fetchLogs_resume
                 (Json 200 (BodyObject true
                    (Some {| payload_logs := None; payload_pagination := None |}))) st in
    logs st' = [] /\ pagination st' = defaultPagination /\ toasts st' = toasts st.
Proof.
  repeat split; try (eexists; vm_compute; reflexivity).
Qed.

(** ** Header totals of the enhanced-stats variant *)






(** ** Whole numbers as doubles

    A whole number below 2^53 in magnitude is a double exactly. Subtracting
    two of them is exact when the difference is below 2^53 as well, and
    Number::toString prints such a double as the decimal digits of the
    integer. The lemmas follow [binary_normalize] and the digit search step
    by step. *)

Lemma iter_pos_nat {A} (f : A -> A) (p : positive) (x : A) :
  SpecFloat.iter_pos f p x = Nat.iter (Pos.to_nat p) f x.
Proof.
  revert x. induction p as [p IH|p IH|]; intros x; cbn [SpecFloat.iter_pos].
  - rewrite !IH, Pos2Nat.inj_xI.
    replace (S (2 * Pos.to_nat p)) with (Pos.to_nat p + (Pos.to_nat p + 1))%nat by lia.
    by rewrite !Nat.iter_add.
  - rewrite !IH, Pos2Nat.inj_xO.
    replace (2 * Pos.to_nat p)%nat with (Pos.to_nat p + Pos.to_nat p)%nat by lia.
    by rewrite Nat.iter_add.
  - done.
Qed.

Lemma iter_xO_pow (k : nat) (m : positive) :
  Z.pos (Nat.iter k xO m) = Z.pos m * 2 ^ Z.of_nat k.
Proof.
  induction k as [|k IH]; [simpl; lia|].
  rewrite Nat2Z.inj_succ, Z.pow_succ_r by lia. simpl Nat.iter.
  rewrite Pos2Z.inj_xO, IH. lia.
Qed.

Lemma shifted_iter (m m0 : positive) (k : nat) :
  Z.pos m = Z.pos m0 * 2 ^ Z.of_nat k -> m = Nat.iter k xO m0.
Proof. rewrite <- iter_xO_pow. by intros [=]. Qed.

Lemma shr_1_iter (k : nat) (m0 : positive) :
  Nat.iter k shr_1 (Build_shr_record (Z.pos (Nat.iter k xO m0)) false false)
  = Build_shr_record (Z.pos m0) false false.
Proof.
  induction k as [|k IH]; [done|].
  rewrite Nat.iter_succ_r. simpl. exact IH.
Qed.

Lemma shr_exact (m m0 : positive) (e n : Z) :
  0 <= n -> Z.pos m = Z.pos m0 * 2 ^ n ->
  shr (Build_shr_record (Z.pos m) false false) e n
  = (Build_shr_record (Z.pos m0) false false, e + n).
Proof.
  intros Hn Hm. destruct n as [|p|p]; [| |lia].
  - simpl. rewrite Z.add_0_r. replace m with m0 by lia. done.
  - unfold shr. rewrite iter_pos_nat.
    rewrite <- (positive_nat_Z p) in Hm. apply shifted_iter in Hm. subst m.
    by rewrite shr_1_iter.
Qed.

Lemma shl_align_pow (m : positive) (e e' : Z) :
  shl_align m e e' = (Z.to_pos (Z.pos m * 2 ^ (e - Z.min e e')), Z.min e e').
Proof.
  unfold shl_align. destruct (e' - e) as [|p|p] eqn:Hd.
  - replace (Z.min e e') with e by lia. rewrite Z.sub_diag. simpl. f_equal. lia.
  - replace (Z.min e e') with e by lia. rewrite Z.sub_diag. simpl. f_equal. lia.
  - replace (Z.min e e') with e' by lia. f_equal.
    rewrite Pos2Nat.inj_iter.
    replace (e - e') with (Z.of_nat (Pos.to_nat p)) by lia.
    by rewrite <- iter_xO_pow.
Qed.

Lemma digits2_size (p : positive) : digits2_pos p = Pos.size p.
Proof. induction p; simpl; congruence. Qed.

Lemma size_bounds (p : positive) :
  2 ^ (Z.pos (Pos.size p) - 1) <= Z.pos p < 2 ^ Z.pos (Pos.size p).
Proof.
  induction p as [p IH|p IH|]; [| |simpl; lia].
  - replace (Z.pos (Pos.size p~1)) with (Z.pos (Pos.size p) + 1) by (simpl; lia).
    rewrite Z.pow_add_r by lia. replace (Z.pos (Pos.size p) + 1 - 1)
      with (Z.pos (Pos.size p) - 1 + 1) by lia.
    rewrite Z.pow_add_r by lia. lia.
  - replace (Z.pos (Pos.size p~0)) with (Z.pos (Pos.size p) + 1) by (simpl; lia).
    rewrite Z.pow_add_r by lia. replace (Z.pos (Pos.size p) + 1 - 1)
      with (Z.pos (Pos.size p) - 1 + 1) by lia.
    rewrite Z.pow_add_r by lia. lia.
Qed.

Lemma size_unique (p : positive) (b : Z) :
  2 ^ (b - 1) <= Z.pos p < 2 ^ b -> Z.pos (Pos.size p) = b.
Proof.
  intros [Hlo Hhi]. pose proof (size_bounds p) as [Hlo' Hhi'].
  assert (b - 1 < Z.pos (Pos.size p)).
  { apply (Z.pow_lt_mono_r_iff 2); lia. }
  assert (0 <= b).
  { destruct (Z.le_gt_cases 0 b); [done|]. rewrite (Z.pow_neg_r 2 b) in Hhi; lia. }
  assert (Z.pos (Pos.size p) - 1 < b).
  { apply (Z.pow_lt_mono_r_iff 2); lia. }
  lia.
Qed.

Lemma size_shifted (m a : positive) (j : Z) :
  0 <= j -> Z.pos m = Z.pos a * 2 ^ j ->
  Z.pos (Pos.size m) = Z.pos (Pos.size a) + j.
Proof.
  intros Hj Hm. apply size_unique. rewrite Hm.
  pose proof (size_bounds a) as [Hlo Hhi].
  replace (Z.pos (Pos.size a) + j - 1) with (Z.pos (Pos.size a) - 1 + j) by lia.
  rewrite !Z.pow_add_r by lia.
  assert (0 < 2 ^ j) by (apply Z.pow_pos_nonneg; lia). nia.
Qed.

Lemma size_53 (a : positive) : Z.pos a < 2 ^ 53 -> Z.pos (Pos.size a) <= 53.
Proof.
  intros Ha. pose proof (size_bounds a) as [Hlo _].
  destruct (Z.le_gt_cases (Z.pos (Pos.size a)) 53); [done|].
  assert (2 ^ 53 <= 2 ^ (Z.pos (Pos.size a) - 1)) by (apply Z.pow_le_mono_r; lia). lia.
Qed.

Lemma wholeMantissa_pos (a : positive) :
  Z.pos a < 2 ^ 53 ->
  Z.pos (wholeMantissa a) = Z.pos a * 2 ^ (53 - Z.pos (Pos.size a)).
Proof.
  intros Ha. unfold wholeMantissa. rewrite Z2Pos.id; [done|].
  pose proof (size_53 a Ha).
  assert (0 < 2 ^ (53 - Z.pos (Pos.size a))) by (apply Z.pow_pos_nonneg; lia). lia.
Qed.

Lemma binary_round_whole (s : bool) (m a : positive) (e : Z) :
  Z.pos a < 2 ^ 53 -> e <= 0 -> Z.pos m = Z.pos a * 2 ^ (- e) ->
  binary_round prec emax s m e = S754_finite s (wholeMantissa a) (wholeExponent a).
Proof.
  intros Ha He Hm. pose proof (size_53 a Ha) as Hsize.
  pose proof (wholeMantissa_pos a Ha) as Hcanon.
  set (b := Z.pos (Pos.size a)) in *.
  assert (Hdigits : Z.pos (digits2_pos m) + e = b).
  { rewrite digits2_size, (size_shifted m a (- e)); fold b; lia. }
  unfold binary_round. rewrite Hdigits, shl_align_pow.
  assert (Hfexp : fexp prec emax b = b - 53).
  { unfold fexp, emin, prec, emax. lia. }
  rewrite Hfexp.
  set (ez := Z.min e (b - 53)).
  set (mz := Z.to_pos (Z.pos m * 2 ^ (e - ez))).
  assert (Hmz : Z.pos mz = Z.pos a * 2 ^ (- ez)).
  { unfold mz. rewrite Z2Pos.id.
    - rewrite Hm, <- Z.mul_assoc, <- Z.pow_add_r by lia. f_equal. f_equal. lia.
    - assert (0 < 2 ^ (e - ez)) by (apply Z.pow_pos_nonneg; lia). lia. }
  assert (Hmz' : Z.pos mz = Z.pos (wholeMantissa a) * 2 ^ (b - 53 - ez)).
  { rewrite Hmz, Hcanon, <- Z.mul_assoc, <- Z.pow_add_r by lia. f_equal. f_equal. lia. }
  unfold binary_round_aux, shr_fexp. simpl Zdigits2.
  rewrite digits2_size, (size_shifted mz a (- ez)) by lia. fold b.
  replace (b + - ez + ez) with b by lia. rewrite Hfexp.
  simpl shr_record_of_loc.
  rewrite (shr_exact mz (wholeMantissa a) ez (b - 53 - ez)) by (done || lia).
  simpl. rewrite digits2_size.
  rewrite (size_shifted (wholeMantissa a) a (53 - b)) by (done || lia). fold b.
  replace (b + (53 - b) + (ez + (b - 53 - ez))) with b by lia.
  rewrite Hfexp. replace (b - 53 - (ez + (b - 53 - ez))) with 0 by lia.
  simpl. 
  replace (ez + (b - 53 - ez)) with (b - 53) by lia.
  unfold wholeExponent. fold b.
  destruct (Z.leb_spec (b - 53) (emax - prec)) as [_|H]; [done|].
  unfold emax, prec in H. lia.
Qed.

Lemma wholeExponent_nonpos (a : positive) : Z.pos a < 2 ^ 53 -> wholeExponent a <= 0.
Proof. intros Ha. pose proof (size_53 a Ha). unfold wholeExponent. lia. Qed.

Lemma wholeMantissa_value (a : positive) :
  Z.pos a < 2 ^ 53 ->
  Z.pos (wholeMantissa a) = Z.pos a * 2 ^ (- wholeExponent a).
Proof.
  intros Ha. rewrite (wholeMantissa_pos a Ha). unfold wholeExponent.
  f_equal. f_equal. lia.
Qed.

Lemma whole_valid (s : bool) (a : positive) :
  Z.pos a < 2 ^ 53 ->
  valid_binary (S754_finite s (wholeMantissa a) (wholeExponent a)) = true.
Proof.
  intros Ha. pose proof (size_53 a Ha) as Hsize.
  unfold valid_binary, bounded, canonical_mantissa.
  rewrite digits2_size, (size_shifted (wholeMantissa a) a (53 - Z.pos (Pos.size a)))
    by (lia || by apply wholeMantissa_pos).
  unfold wholeExponent, fexp, emin, FloatOps.prec, FloatOps.emax.
  apply andb_true_intro. split; [apply Z.eqb_eq|apply Z.leb_le]; lia.
Qed.

Lemma binary_normalize_whole (z : Z) (e : Z) (a : positive) (m : Z) :
  Z.pos a < 2 ^ 53 -> e <= 0 -> Z.abs z = Z.pos a -> m = z * 2 ^ (- e) ->
  binary_normalize prec emax m e false
  = S754_finite (z <? 0) (wholeMantissa a) (wholeExponent a).
Proof.
  intros Ha He Hz ->.
  assert (Hpow : 0 < 2 ^ (- e)) by (apply Z.pow_pos_nonneg; lia).
  destruct z as [|p|p]; [done| |].
  - injection Hz as ->.
    destruct (Z.pos a * 2 ^ (- e)) as [|q|q] eqn:Hq; [lia| |lia].
    simpl. by apply binary_round_whole.
  - injection Hz as ->.
    destruct (Z.neg a * 2 ^ (- e)) as [|q|q] eqn:Hq; [lia|lia|].
    simpl. apply binary_round_whole; [done..|]. lia.
Qed.

(** The double of a whole number below [2^53] in magnitude. *)
Lemma number_of_Z_whole (z : Z) (a : positive) :
  Z.pos a < 2 ^ 53 -> Z.abs z = Z.pos a ->
  Prim2SF (number_of_Z z) = S754_finite (z <? 0) (wholeMantissa a) (wholeExponent a).
Proof.
  intros Ha Hz. unfold number_of_Z.
  rewrite (binary_normalize_whole z 0 a z Ha) by (lia || done).
  by apply Prim2SF_SF2Prim, whole_valid.
Qed.

Lemma number_of_Z_zero : Prim2SF (number_of_Z 0) = S754_zero false.
Proof. reflexivity. Qed.

(** Subtraction of whole numbers is exact as long as the operands and the
    difference stay below [2^53] in magnitude. *)
Lemma sub_number_of_Z (n o : Z) :
  Z.abs n < 2 ^ 53 -> Z.abs o < 2 ^ 53 -> Z.abs (n - o) < 2 ^ 53 ->
  (number_of_Z n - number_of_Z o)%float = number_of_Z (n - o).
Proof.
  intros Hn Ho Hd. apply Prim2SF_inj. rewrite FloatAxioms.sub_spec.
  destruct (Z.eq_dec n 0) as [->|Hn0]; destruct (Z.eq_dec o 0) as [->|Ho0].
  - reflexivity.
  - rewrite number_of_Z_zero.
    rewrite (number_of_Z_whole o (Z.to_pos (Z.abs o))) by lia.
    rewrite (number_of_Z_whole (0 - o) (Z.to_pos (Z.abs o))) by lia.
    unfold SF64sub, SFsub. f_equal. 
    destruct (Z.ltb_spec o 0), (Z.ltb_spec (0 - o) 0); done || lia.
  - rewrite number_of_Z_zero, Z.sub_0_r.
    by rewrite (number_of_Z_whole n (Z.to_pos (Z.abs n))) by lia.
  - rewrite (number_of_Z_whole n (Z.to_pos (Z.abs n))) by lia.
    rewrite (number_of_Z_whole o (Z.to_pos (Z.abs o))) by lia.
    set (an := Z.to_pos (Z.abs n)). set (ao := Z.to_pos (Z.abs o)).
    assert (Han : Z.pos an < 2 ^ 53) by (unfold an; lia).
    assert (Hao : Z.pos ao < 2 ^ 53) by (unfold ao; lia).
    pose proof (wholeExponent_nonpos an Han) as Hen.
    pose proof (wholeExponent_nonpos ao Hao) as Heo.
    unfold SF64sub, SFsub. rewrite !shl_align_pow. cbn [fst].
    set (ez := Z.min (wholeExponent an) (wholeExponent ao)).
    replace (Z.min (wholeExponent an) ez) with ez by lia.
    replace (Z.min (wholeExponent ao) ez) with ez by lia.
    assert (Hshift : forall (z : Z) (a : positive),
              Z.pos a < 2 ^ 53 -> Z.abs z = Z.pos a -> ez <= wholeExponent a ->
              cond_Zopp (z <? 0)
                (Z.pos (Z.to_pos (Z.pos (wholeMantissa a) * 2 ^ (wholeExponent a - ez))))
              = z * 2 ^ (- ez)).
    { intros z a Ha Hz Hez.
      pose proof (wholeExponent_nonpos a Ha) as He.
      assert (0 < 2 ^ (wholeExponent a - ez)) by (apply Z.pow_pos_nonneg; lia).
      rewrite Z2Pos.id by lia. rewrite (wholeMantissa_value a Ha).
      rewrite <- Z.mul_assoc, <- Z.pow_add_r by lia.
      replace (- wholeExponent a + (wholeExponent a - ez)) with (- ez) by lia.
      unfold cond_Zopp. destruct (Z.ltb_spec z 0); lia. }
    rewrite (Hshift n an), (Hshift o ao) by (done || unfold ez, an, ao; lia).
    rewrite <- Z.mul_sub_distr_r.
    destruct (Z.eq_dec (n - o) 0) as [Heq|Hneq].
    + rewrite Heq. reflexivity.
    + rewrite (number_of_Z_whole (n - o) (Z.to_pos (Z.abs (n - o)))) by lia.
      apply (binary_normalize_whole (n - o)); lia.
Qed.

Lemma leb_number_of_Z (z : Z) :
  Z.abs z < 2 ^ 53 -> (0 <=? number_of_Z z)%float = (0 <=? z).
Proof.
  intros Hz. rewrite FloatAxioms.leb_spec.
  destruct (Z.eq_dec z 0) as [->|Hz0]; [reflexivity|].
  rewrite (number_of_Z_whole z (Z.to_pos (Z.abs z))) by lia.
  change (Prim2SF 0) with (S754_zero false). unfold SFleb, SFcompare.
  destruct (Z.ltb_spec z 0), (Z.leb_spec 0 z); done || lia.
Qed.

Lemma append_assoc (a b c : string) : (a ++ b) ++ c = a ++ b ++ c.
Proof. induction a; simpl; congruence. Qed.

(** ** Decimal digits *)

Lemma append_empty (a : string) : a ++ "" = a.
Proof. induction a; simpl; congruence. Qed.

Lemma string_of_revapp (d d' : Decimal.uint) :
  NilEmpty.string_of_uint (Decimal.revapp d d')
  = NilEmpty.string_of_uint (Decimal.rev d) ++ NilEmpty.string_of_uint d'.
Proof.
  revert d'. unfold Decimal.rev.
  induction d; intros d'; [done|..];
    simpl; rewrite IHd, (IHd (_ Decimal.Nil)), append_assoc; done.
Qed.

Lemma of_lu_to_lu (p : positive) :
  DecimalPos.Unsigned.of_lu (Pos.to_little_uint p) = N.pos p.
Proof.
  rewrite <- DecimalPos.Unsigned.of_lu_rev.
  apply DecimalPos.Unsigned.of_to.
Qed.

Lemma nztail_to_lu (p : positive) :
  DecimalFacts.nztail (Pos.to_little_uint p) = Pos.to_little_uint p /\
  Pos.to_little_uint p <> Decimal.Nil.
Proof.
  pose proof (DecimalPos.Unsigned.to_of_lu (Pos.to_little_uint p)) as H.
  rewrite of_lu_to_lu in H. simpl in H. unfold DecimalFacts.lnorm in H.
  destruct (DecimalFacts.nztail (Pos.to_little_uint p)) eqn:Hnz;
    [|by rewrite H..].
  apply DecimalPos.Unsigned.of_lu_0 in Hnz. by rewrite of_lu_to_lu in Hnz.
Qed.

(** The digits of [10 q + r] are those of [q] followed by the digit [r]. *)
Lemma to_lu_step (q : positive) (r : Z) (d : Decimal.uint -> Decimal.uint) :
  0 <= r < 10 ->
  (forall u, DecimalPos.Unsigned.of_lu (d u)
             = (Z.to_N r + 10 * DecimalPos.Unsigned.of_lu u)%N) ->
  (forall u, DecimalFacts.nztail u = u -> u <> Decimal.Nil ->
             DecimalFacts.nztail (d u) = d u /\ d u <> Decimal.Nil) ->
  Pos.to_little_uint (Z.to_pos (10 * Z.pos q + r)) = d (Pos.to_little_uint q).
Proof.
  intros Hr Hvalue Hnorm.
  destruct (nztail_to_lu q) as [Hnz Hnil].
  destruct (Hnorm _ Hnz Hnil) as [Hnz' Hnil'].
  pose proof (DecimalPos.Unsigned.to_of_lu (d (Pos.to_little_uint q))) as H.
  rewrite Hvalue, of_lu_to_lu in H. unfold DecimalFacts.lnorm in H.
  rewrite Hnz' in H.
  replace (Z.to_N r + 10 * N.pos q)%N with (N.pos (Z.to_pos (10 * Z.pos q + r))) in H
    by lia.
  simpl in H. rewrite H. by destruct (d (Pos.to_little_uint q)).
Qed.

Lemma digits_step (a : Z) :
  10 <= a -> digits a = digits (a / 10) ++ String (digit (a mod 10)) "".
Proof.
  intros Ha. pose proof (Z.div_mod a 10 ltac:(lia)) as Hdiv.
  pose proof (Z.mod_pos_bound a 10 ltac:(lia)) as Hmod.
  assert (Hq : 0 < a / 10) by (apply Z.div_str_pos; lia).
  destruct (a / 10) as [|q|q] eqn:Hquot; [lia| |lia].
  set (r := a mod 10) in *.
  assert (Hstep : forall d c,
            Pos.to_little_uint (Z.to_pos (10 * Z.pos q + r)) = d (Pos.to_little_uint q) ->
            (forall u, NilEmpty.string_of_uint (Decimal.rev (d u))
                       = NilEmpty.string_of_uint (Decimal.rev u) ++ String c "") ->
            digit r = c ->
            digits a = digits (Z.pos q) ++ String (digit r) "").
  { intros d c Hlu Hstr ->. unfold digits. rewrite Hdiv.
    replace (Z.to_N (10 * Z.pos q + r)) with (N.pos (Z.to_pos (10 * Z.pos q + r))) by lia.
    simpl N.to_uint. unfold Pos.to_uint. rewrite Hlu.
    destruct (nztail_to_lu q) as [_ Hnil].
    assert (Hrev : forall u, u <> Decimal.Nil ->
              NilZero.string_of_uint (Decimal.rev u)
              = NilEmpty.string_of_uint (Decimal.rev u)).
    { intros u Hu. unfold NilZero.string_of_uint.
      destruct (Decimal.rev u) eqn:Hr; [|done..].
      apply DecimalFacts.rev_nil_inv in Hr. done. }
    rewrite Hrev, Hstr, Hrev; [done|done|].
    intros Hd. rewrite Hd in Hlu.
    pose proof (nztail_to_lu (Z.to_pos (10 * Z.pos q + r))) as [_ H]. done. }
  assert (Hcases : r = 0 \/ r = 1 \/ r = 2 \/ r = 3 \/ r = 4 \/ r = 5 \/ r = 6 \/
                   r = 7 \/ r = 8 \/ r = 9) by lia.
  assert (Hsnoc : forall (d : Decimal.uint -> Decimal.uint) u,
            (forall v w, Decimal.revapp (d v) w = Decimal.revapp v (d w)) ->
            NilEmpty.string_of_uint (Decimal.rev (d u))
            = NilEmpty.string_of_uint (Decimal.rev u)
              ++ NilEmpty.string_of_uint (d Decimal.Nil)).
  { intros d u Hd. unfold Decimal.rev at 1. rewrite Hd. apply string_of_revapp. }
  destruct Hcases as [H|[H|[H|[H|[H|[H|[H|[H|[H|H]]]]]]]]]; rewrite H in *;
    [ apply (Hstep Decimal.D0 "0"%char) | apply (Hstep Decimal.D1 "1"%char)
    | apply (Hstep Decimal.D2 "2"%char) | apply (Hstep Decimal.D3 "3"%char)
    | apply (Hstep Decimal.D4 "4"%char) | apply (Hstep Decimal.D5 "5"%char)
    | apply (Hstep Decimal.D6 "6"%char) | apply (Hstep Decimal.D7 "7"%char)
    | apply (Hstep Decimal.D8 "8"%char) | apply (Hstep Decimal.D9 "9"%char) ];
    try (by intros u; apply Hsnoc); try done;
    (apply to_lu_step;
     [lia | intros u; simpl; lia
     | intros u Hu Hnil; simpl; rewrite Hu; by destruct u]).
Qed.

Lemma zeros_snoc (d : nat) : zeros (S d) = zeros d ++ "0".
Proof. induction d as [|d IH]; [done|]. simpl in *. by rewrite <- IH. Qed.

Lemma zeros_add (p q : nat) : zeros (p + q) = zeros p ++ zeros q.
Proof. induction p; simpl; congruence. Qed.

Lemma digits_small (a : Z) : 0 <= a < 10 -> String.length (digits a) = 1%nat.
Proof.
  intros Ha.
  assert (H : a = 0 \/ a = 1 \/ a = 2 \/ a = 3 \/ a = 4 \/ a = 5 \/ a = 6 \/
              a = 7 \/ a = 8 \/ a = 9) by lia.
  by repeat destruct H as [->|H]; [..|subst a].
Qed.

(** Multiplying by a power of ten appends zeros. *)
Lemma digits_tenfold (s : Z) (d : nat) :
  0 < s -> digits (s * 10 ^ Z.of_nat d) = digits s ++ zeros d.
Proof.
  intros Hs. induction d as [|d IH].
  - simpl. by rewrite Z.mul_1_r, append_empty.
  - rewrite Nat2Z.inj_succ, Z.pow_succ_r by lia.
    assert (0 < 10 ^ Z.of_nat d) by (apply Z.pow_pos_nonneg; lia).
    rewrite digits_step by nia.
    replace (s * (10 * 10 ^ Z.of_nat d)) with (s * 10 ^ Z.of_nat d * 10) by lia.
    rewrite Z.div_mul, Z.mod_mul, IH by lia.
    by rewrite zeros_snoc, append_assoc.
Qed.

(** A number below [10^p] has at most [p] digits. *)
Lemma digits_length (p : nat) (a : Z) :
  0 <= a < 10 ^ Z.of_nat p -> (1 <= String.length (digits a) <= Nat.max 1 p)%nat.
Proof.
  revert a. induction p as [|p IH]; intros a Ha.
  - simpl in Ha. rewrite digits_small by lia. lia.
  - destruct (Z.lt_ge_cases a 10) as [Hsmall|Hbig].
    + rewrite digits_small by lia. lia.
    + rewrite digits_step, length_append by done. simpl.
      rewrite Nat2Z.inj_succ, Z.pow_succ_r in Ha by lia.
      assert (Hq : 0 <= a / 10 < 10 ^ Z.of_nat p).
      { split; [apply Z.div_pos; lia|]. apply Z.div_lt_upper_bound; lia. }
      specialize (IH _ Hq).
      destruct p; [simpl in Hq; assert (a / 10 = 0) by lia;
                   assert (a < 10) by (apply Z.div_small_iff in H; lia); lia|].
      lia.
Qed.

(** ** Number::toString on whole numbers *)

Section Whole.

Variable a : positive.
Hypothesis Ha : Z.pos a < 2 ^ 53.

Lemma whole_scale :
  0 < 2 ^ (- wholeExponent a) /\ wholeExponent a <= 0 /\
  Z.pos (wholeMantissa a) = Z.pos a * 2 ^ (- wholeExponent a).
Proof.
  pose proof (wholeExponent_nonpos a Ha). split; [|split; [done|]].
  - apply Z.pow_pos_nonneg; lia.
  - by apply wholeMantissa_value.
Qed.

Lemma whole_magnitude :
  magnitude (wholeMantissa a) (wholeExponent a)
  = Z.of_nat (String.length (digits (Z.pos a))).
Proof.
  destruct whole_scale as (HT & He & Hm). unfold magnitude.
  set (m := wholeMantissa a) in *. set (e := wholeExponent a) in *.
  set (T := 2 ^ (- e)) in *.
  rewrite Z.max_l, Z.max_r by lia. rewrite Z.pow_0_r, Z.mul_1_r.
  fold T. rewrite Hm, Z.div_mul by lia. done.
Qed.

(** Among the decimals [s * 10^d] with [d >= 0] only the number itself
    rounds to it. *)
Lemma whole_roundsTo (s d : Z) :
  0 <= d ->
  roundsToDouble (wholeMantissa a) (wholeExponent a) s d = (s * 10 ^ d =? Z.pos a).
Proof.
  intros Hd. destruct whole_scale as (HT & He & Hm). unfold roundsToDouble.
  set (m := wholeMantissa a) in *. set (e := wholeExponent a) in *.
  set (T := 2 ^ (- e)) in *.
  rewrite (Z.max_r 0 d), (Z.max_r 0 (- e)), (Z.max_l 0 e), (Z.max_l 0 (- d)) by lia.
  fold T. rewrite !Z.pow_0_r, !Z.mul_1_r, Hm.
  set (below := if _ && _ then 1 else 2).
  assert (Hbelow : 1 <= below <= 2) by (unfold below; destruct (_ && _); lia).
  destruct (Z.eqb_spec (s * 10 ^ d) (Z.pos a)) as [Heq|Hneq].
  - replace (4 * s * 10 ^ d * T) with (4 * (Z.pos a * T)) by (rewrite <- Heq; lia).
    destruct (Z.even (Z.pos a * T));
      apply andb_true_intro; split; (apply Z.leb_le || apply Z.ltb_lt); lia.
  - assert (H : s * 10 ^ d <= Z.pos a - 1 \/ Z.pos a + 1 <= s * 10 ^ d) by lia.
    destruct (Z.even (Z.pos a * T)); apply andb_false_iff;
      (destruct H; [left|right]); (apply Z.leb_gt || apply Z.ltb_ge); nia.
Qed.

Lemma whole_search (fuel : nat) (k n : Z) :
  1 <= k <= n -> n - k < Z.of_nat fuel ->
  exists s d, shortestDecimal fuel k (wholeMantissa a) (wholeExponent a) n = (s, d) /\
    0 <= d /\ 0 < s /\ s * 10 ^ d = Z.pos a.
Proof.
  destruct whole_scale as (HT & He & Hm).
  set (m := wholeMantissa a) in *. set (e := wholeExponent a) in *.
  set (T := 2 ^ (- e)) in *.
  revert k. induction fuel as [|fuel IH]; intros k Hk Hfuel; [lia|].
  cbn [shortestDecimal]. set (d := n - k).
  assert (Hd : 0 <= d) by (unfold d; lia).
  assert (Hpow : 0 < 10 ^ d) by (apply Z.pow_pos_nonneg; lia).
  unfold m, e. rewrite !whole_roundsTo by done. fold m e.
  rewrite (Z.max_r 0 d), (Z.max_r 0 (- e)), (Z.max_l 0 e), (Z.max_l 0 (- d)) by lia.
  fold T. rewrite !Z.pow_0_r, !Z.mul_1_r, Hm.
  rewrite (Z.mul_comm (Z.pos a) T), Z.div_mul_cancel_l by lia.
  pose proof (Z.div_mod (Z.pos a) (10 ^ d) ltac:(lia)) as Hdiv.
  pose proof (Z.mod_pos_bound (Z.pos a) (10 ^ d) ltac:(lia)) as Hmod.
  destruct (Z.eqb_spec ((Z.pos a / 10 ^ d + 1) * 10 ^ d) (Z.pos a)) as [Hhi|_]; [nia|].
  destruct (Z.eqb_spec (Z.pos a / 10 ^ d * 10 ^ d) (Z.pos a)) as [Hlo|Hlo].
  - exists (Z.pos a / 10 ^ d), d. repeat split; [done| |done]. nia.
  - assert (d <> 0).
    { intros H0. rewrite H0 in Hlo. simpl in Hlo. rewrite Z.div_1_r in Hlo. lia. }
    destruct (IH (k + 1)) as (s & d' & Hs & Hrest); [lia|lia|].
    by exists s, d'.
Qed.

Lemma strip_restore (l : list ascii) :
  l = (repeat "0"%char (length l - length (stripZeros l)) ++ stripZeros l)%list /\
  (length (stripZeros l) <= length l)%nat.
Proof.
  induction l as [|c l [IH Hlen]]; [done|].
  destruct (Ascii.eqb_spec c "0") as [->|Hc].
  - simpl stripZeros. simpl length. split; [|lia].
    replace (S (length l) - length (stripZeros l))%nat
      with (S (length l - length (stripZeros l))) by lia.
    simpl. by rewrite <- IH.
  - assert (Hstrip : stripZeros (c :: l) = c :: l).
    { simpl. destruct c as [[] [] [] [] [] [] [] []]; done. }
    rewrite Hstrip, Nat.sub_diag. done.
Qed.

Lemma string_of_list_app (l l' : list ascii) :
  string_of_list_ascii (l ++ l') = string_of_list_ascii l ++ string_of_list_ascii l'.
Proof. induction l; simpl; congruence. Qed.

Lemma string_of_list_zeros (k : nat) :
  string_of_list_ascii (repeat "0"%char k) = zeros k.
Proof. induction k; simpl; congruence. Qed.

Lemma length_string_of_list (l : list ascii) :
  String.length (string_of_list_ascii l) = length l.
Proof. induction l; simpl; congruence. Qed.

Lemma length_list_of_string (s : string) :
  length (list_ascii_of_string s) = String.length s.
Proof. induction s; simpl; congruence. Qed.

(** A whole number below [2^53] is printed as its decimal digits. *)
Lemma toStringPositive_whole :
  toStringPositive (wholeMantissa a) (wholeExponent a) = digits (Z.pos a).
Proof.
  assert (Hbound : Z.pos a < 10 ^ Z.of_nat 16) by (simpl; lia).
  pose proof (digits_length 16 (Z.pos a) ltac:(lia)) as Hlen.
  destruct (whole_search 17 1 (magnitude (wholeMantissa a) (wholeExponent a)))
    as (s & d & Hsearch & Hd & Hs & Hvalue).
  { rewrite whole_magnitude. lia. }
  { rewrite whole_magnitude. lia. }
  unfold toStringPositive. rewrite Hsearch.
  set (all := list_ascii_of_string (digits s)).
  assert (Hdigits : digits (Z.pos a) = digits s ++ zeros (Z.to_nat d)).
  { rewrite <- Hvalue, <- (Z2Nat.id d) at 1 by done. by apply digits_tenfold. }
  destruct (strip_restore (rev all)) as [Hrestore Hshort].
  set (ds := rev (stripZeros (rev all))) in *.
  assert (Hds : length ds = length (stripZeros (rev all))) by apply length_rev.
  rewrite length_rev in Hrestore, Hshort.
  assert (Hall : all = (ds ++ repeat "0"%char (length all - length ds))%list).
  { rewrite <- (rev_involutive all), Hrestore, rev_app_distr at 1.
    fold ds. rewrite Hds. f_equal.
    clear. induction (_ - _)%nat as [|j IH]; [done|].
    simpl. rewrite IH at 1. clear. induction j; simpl; congruence. }
  rewrite length_string_of_list.
  assert (Htotal : (length all + Z.to_nat d)%nat = String.length (digits (Z.pos a))).
  { rewrite Hdigits, length_append, length_zeros. unfold all.
    by rewrite length_list_of_string. }
  destruct (Z.leb_spec (Z.of_nat (length ds)) (Z.of_nat (length all) + d)) as [_|H];
    [|lia].
  destruct (Z.leb_spec (Z.of_nat (length all) + d) 21) as [_|H]; [|lia].
  simpl. rewrite Hdigits.
  rewrite <- (string_of_list_ascii_of_string (digits s)). fold all.
  rewrite Hall at 2. rewrite string_of_list_app, string_of_list_zeros, append_assoc.
  f_equal. rewrite <- zeros_add. f_equal. lia.
Qed.

End Whole.

Lemma toString_number_of_Z (z : Z) :
  Z.abs z < 2 ^ 53 -> toString (number_of_Z z) = string_of_Z z.
Proof.
  intros Hz. destruct (Z.eq_dec z 0) as [->|Hz0]; [reflexivity|].
  unfold toString. rewrite (number_of_Z_whole z (Z.to_pos (Z.abs z))) by lia.
  rewrite toStringPositive_whole by lia.
  destruct z as [|p|p]; [done|done|]. reflexivity.
Qed.

(** ** Inventory log entries: the displayed delta *)

Lemma string_of_Z_neg (d : Z) : d < 0 -> string_of_Z d = "-" ++ digits (- d).
Proof. destruct d; [lia|lia|]. reflexivity. Qed.

Lemma string_of_Z_nonneg (d : Z) : 0 <= d -> string_of_Z d = digits d.
Proof. destruct d; [reflexivity|reflexivity|lia]. Qed.

(** A number below zero is printed as the minus sign and its opposite. *)
Lemma toString_negative (x : float) :
  (x <? 0)%float = true ->
  toString x = "-" ++ toString (- x) /\ (0 <=? x)%float = false.
Proof.
  intros Hneg. rewrite FloatAxioms.ltb_spec in Hneg.
  rewrite FloatAxioms.leb_spec. unfold toString.
  rewrite FloatAxioms.opp_spec.
  destruct (Prim2SF x) as [[]|[]| |[] m e]; try discriminate Hneg; done.
Qed.

Lemma toString_positive (x : float) :
  (0 <? x)%float = true -> (0 <=? x)%float = true.
Proof.
  rewrite FloatAxioms.ltb_spec, FloatAxioms.leb_spec.
  unfold SFltb, SFleb. by destruct (SFcompare _ _) as [[]|].
Qed.



(** C8 (as stated, refuted): the balances -1 and 2^53 differ by 2^53 + 1,
    which is no double; the card shows the rounded difference. *)
Lemma delta_rounded_beyond_2_53 :
  exists card, renderLog (sampleLog (-1) 9007199254740992 1) = Ok card /\
    card_deltaText card = "+9007199254740992" /\
    card_deltaText card <> "+" ++ string_of_Z (9007199254740992 - -1).
Proof. eexists. split; [reflexivity|]. split; [vm_compute; reflexivity|]. vm_compute. discriminate. Qed.

(** C8 (amended): an entry whose type is a string is rendered, and its card
    shows [balanceAfter - balanceBefore], the difference of the two doubles
    as JavaScript prints it, next to the two balances: a negative delta as
    the minus sign and its magnitude with the downward indicator, a positive
    one as ["+"] and the number with the upward indicator. For whole-number
    balances the text is the exact difference in decimal as long as the
    balances and their difference stay below 2^53 in magnitude; 50 -> 30
    shows ["-20"] downward. The [quantity] field plays no part. *)
Theorem delta_display (log : InventoryLog) (t : string) :
  type log = Str t ->
  let quantityChange := (balanceAfter log - balanceBefore log)%float in
  exists card,
    renderLog log = Ok card /\
    card_deltaText card
    = (if (0 <=? quantityChange)%float then "+" else "") ++ toString quantityChange /\
    card_balances card = (balanceBefore log, balanceAfter log) /\
    ((quantityChange <? 0)%float = true ->
     card_deltaText card = "-" ++ toString (- quantityChange) /\
     card_deltaIcon card = TrendingDown) /\
    ((0 <? quantityChange)%float = true ->
     card_deltaText card = "+" ++ toString quantityChange /\
     card_deltaIcon card = TrendingUp) /\
    (forall before after : Z,
       balanceBefore log = number_of_Z before ->
       balanceAfter log = number_of_Z after ->
       Z.abs before < 2 ^ 53 -> Z.abs after < 2 ^ 53 ->
       Z.abs (after - before) < 2 ^ 53 ->
       let delta := after - before in
       card_deltaText card = (if 0 <=? delta then "+" else "") ++ string_of_Z delta /\
       card_deltaIcon card = (if 0 <=? delta then TrendingUp else TrendingDown) /\
       (delta < 0 -> card_deltaText card = "-" ++ digits (- delta)) /\
       (0 < delta -> card_deltaText card = "+" ++ digits delta)) /\
    (forall q, renderLog (withQuantity q log) = Ok card) /\
    (exists c, renderLog (sampleLog 50 30 20) = Ok c /\
               card_deltaText c = "-20" /\ card_deltaIcon c = TrendingDown).
Proof.
  intros Htype quantityChange. unfold renderLog.
  destruct (getLogTypeStyles (type log)) as [styles|] eqn:Hstyles;
    [|rewrite Htype in Hstyles; simpl in Hstyles;
      repeat match type of Hstyles with
             | context [if ?b then _ else _] => destruct b
             end; discriminate].
  eexists. split; [reflexivity|]. simpl. fold quantityChange.
  do 2 (split; [reflexivity|]).
  split; [|split; [|split; [|split]]].
  - intros Hneg. destruct (toString_negative _ Hneg) as [-> ->]. done.
  - intros Hpos. by rewrite (toString_positive _ Hpos).
  - intros before after Hbefore Hafter Hb Ha Hd.
    unfold quantityChange. rewrite Hbefore, Hafter, sub_number_of_Z by done.
    set (delta := after - before) in *.
    rewrite leb_number_of_Z, toString_number_of_Z by done.
    do 2 (split; [done|]). split; intros Hsign.
    + destruct (Z.leb_spec 0 delta); [lia|]. by rewrite string_of_Z_neg.
    + destruct (Z.leb_spec 0 delta); [|lia]. by rewrite string_of_Z_nonneg by lia.
  - intros q. unfold renderLog. simpl. by rewrite Hstyles.
  - eexists. split; [reflexivity|]. split; vm_compute; reflexivity.
Qed.

Lemma delta_display_witness :
  exists card, renderLog (sampleLog 50 30 20) = Ok card /\
    card_deltaText card = "-" ++ digits 20 /\ card_deltaIcon card = TrendingDown.
Proof.
  destruct (delta_display (sampleLog 50 30 20) "sale" eq_refl)
    as (card & Hcard & _ & _ & _ & _ & Hwhole & _).
  exists card. split; [exact Hcard|].
  destruct (Hwhole 50 30 eq_refl eq_refl) as (_ & Hicon & Hneg & _);
    [reflexivity..|].
  split; [apply Hneg; reflexivity|exact Hicon].
Defined.



(** ** The fetch life cycle of the log viewer *)

(** C7 (as stated, refuted): a response with status 500 whose body says
    [success: true] replaces the list, and a response with [success: false]
    leaves no notification. *)
Lemma fetch_failure_as_stated_fails :
  let st := showing [sampleLog 50 30 20] in
  logs (fetchLogs_resume (Json 500 (okBody [] defaultPagination)) st) = [] /\
  logs st <> [] /\
  toasts (fetchLogs_resume (Json 404 (BodyObject false None)) st) = [].
Proof. repeat split. discriminate. Qed.

(** C7 (amended): when the fetch is rejected, the body cannot be parsed or
    read, or the body does not report success, the logs and the pagination
    stay as they were and the loading flag is cleared; when an exception was
    caught, the one further effect is the error notification. *)
Theorem fetch_failure_atomic (r : Response) (st : State) :
  let st' := fetchLogs_resume r st in
  (raises r = true ->
   logs st' = logs st /\ pagination st' = pagination st /\
   selectedProductId st' = selectedProductId st /\
   toasts st' = (toasts st ++ [failedToLoad])%list /\ loading st' = false) /\
  (declined r = true ->
   logs st' = logs st /\ pagination st' = pagination st /\
   selectedProductId st' = selectedProductId st /\ loading st' = false).
Proof.
  split.
  - destruct r as [| |status [|[] [d|]]]; simpl; intros; try discriminate; done.
  - destruct r as [| |status [|[] [d|]]]; simpl; intros; try discriminate; done.
Qed.

Lemma fetch_failure_atomic_witness :
  let st := showing [sampleLog 50 30 20] in
  (logs (fetchLogs_resume FetchRejected st) = logs st /\
   toasts (fetchLogs_resume FetchRejected st) = [failedToLoad]) /\
  logs (fetchLogs_resume (Json 404 (BodyObject false None)) st) = logs st.
Proof.
  intros st.
  pose proof (fetch_failure_atomic FetchRejected st) as [Hraise _].
  pose proof (fetch_failure_atomic (Json 404 (BodyObject false None)) st) as [_ Hdecl].
  destruct Hraise as (Hl & _ & _ & Ht & _); [reflexivity|].
  destruct Hdecl as (Hl' & _); [reflexivity|].
  split; [split|]; [exact Hl | exact Ht | exact Hl'].
Defined.

(** *** Overlapping fetches *)

(** C9 (as stated, refuted): after the newer response was committed, the stale
    response for product 1 is committed too although product 2 is selected. *)
Lemma stale_response_overwrites :
  let before := run (take 3 staleTrace) initialState in
  let after := run staleTrace initialState in
  selectedProductId before = "2" /\ logs before = [logOf 2] /\
  selectedProductId after = "2" /\ logs after = [logOf 1] /\
  logs after <> logs before /\
  req_productId (request "1" 1) <> selectedProductId before.
Proof. repeat split; discriminate. Qed.

Lemma resolve_success (st : State) (q : Request) (rest : list Request)
    (status : Z) (d : Payload) :
  removeRequest q (inflight st) = Some rest ->
  let st' := step (Resolve q (Json status (BodyObject true (Some d)))) st in
  logs st' = default [] (payload_logs d) /\
  pagination st' = default defaultPagination (payload_pagination d) /\
  selectedProductId st' = selectedProductId st /\
  inflight st' = rest.
Proof. intros H. simpl. by rewrite H. Qed.

(** C9 (amended): the viewer does not fence its requests. When any request in
    flight receives a body that reports success, its logs and pagination are
    committed, whatever product or page is selected by then; of two such
    responses the one that arrives last wins. *)
Theorem response_commits_unfenced (st : State) (q q' : Request)
    (rest rest' : list Request) (status status' : Z) (d d' : Payload) :
  removeRequest q (inflight st) = Some rest ->
  removeRequest q' rest = Some rest' ->
  let st1 := step (Resolve q (Json status (BodyObject true (Some d)))) st in
  let st2 := step (Resolve q' (Json status' (BodyObject true (Some d')))) st1 in
  (logs st1 = default [] (payload_logs d) /\
   pagination st1 = default defaultPagination (payload_pagination d) /\
   selectedProductId st1 = selectedProductId st) /\
  (logs st2 = default [] (payload_logs d') /\
   pagination st2 = default defaultPagination (payload_pagination d') /\
   selectedProductId st2 = selectedProductId st).
Proof.
  intros Hq Hq' st1 st2.
  destruct (resolve_success st q rest status d Hq) as (Hl & Hp & Hs & Hi).
  fold st1 in Hl, Hp, Hs, Hi.
  assert (Hq1 : removeRequest q' (inflight st1) = Some rest') by (by rewrite Hi).
  destruct (resolve_success st1 q' rest' status' d' Hq1) as (Hl' & Hp' & Hs' & _).
  fold st2 in Hl', Hp', Hs'.
  repeat split; try done. by rewrite Hs'.
Qed.

Lemma response_commits_unfenced_witness :
  let st := run (take 2 staleTrace) initialState in
  let st1 := step (Resolve (request "2" 1)
                     (Json 200 (okBody [logOf 2] defaultPagination))) st in
  let st2 := step (Resolve (request "1" 1)
                     (Json 200 (okBody [logOf 1] defaultPagination))) st1 in
  (logs st1 = [logOf 2] /\ pagination st1 = defaultPagination /\
   selectedProductId st1 = "2") /\
  (logs st2 = [logOf 1] /\ pagination st2 = defaultPagination /\
   selectedProductId st2 = "2").
Proof.
  apply (response_commits_unfenced (run (take 2 staleTrace) initialState)
           (request "2" 1) (request "1" 1) [request "1" 1] [] 200 200
           {| payload_logs := Some [logOf 2];
              payload_pagination := Some defaultPagination |}
           {| payload_logs := Some [logOf 1];
              payload_pagination := Some defaultPagination |});
    reflexivity.
Defined.

(** * Further properties of the code *)

(** ** Searching the product catalog *)

Lemma startsWith_spec (s t : string) :
  startsWith s t = true <-> exists b, s = t ++ b.
Proof.
  revert s. induction t as [|c t IH]; intros s; simpl.
  - split; [by exists s|done].
  - destruct s as [|d s].
    + split; [done|]. by intros [b [=]].
    + rewrite andb_true_iff, IH. split.
      * intros [Hc [b ->]]. apply Ascii.eqb_eq in Hc as ->. by exists b.
      * intros [b [= -> ->]]. split; [apply Ascii.eqb_refl|by exists b].
Qed.

Lemma includes_spec (s t : string) :
  includes s t = true <-> exists a b, s = a ++ t ++ b.
Proof.
  induction s as [|d s IH]; simpl.
  - rewrite orb_false_r, startsWith_spec. split.
    + intros [b Hb]. by exists "", b.
    + intros (a & b & Hab). destruct a; [by exists b|done].
  - rewrite orb_true_iff, IH, startsWith_spec. split.
    + intros [[b Hb]|(a & b & ->)]; [by exists "", b|by exists (String d a), b].
    + intros (a & b & Hab). destruct a as [|c a]; [left; by exists b|].
      injection Hab as -> ->. right. by exists a, b.
Qed.

Lemma includes_trans (s t u : string) :
  includes s t = true -> includes t u = true -> includes s u = true.
Proof.
  rewrite !includes_spec. intros (a & b & ->) (a' & b' & ->).
  exists (a ++ a'), (b' ++ b). by rewrite !append_assoc.
Qed.

Lemma toLowerCase_app (a b : string) :
  toLowerCase (a ++ b) = toLowerCase a ++ toLowerCase b.
Proof. induction a as [|c a IH]; simpl; [done|by rewrite IH]. Qed.

Lemma lowerChar_idemp (c : ascii) : lowerChar (lowerChar c) = lowerChar c.
Proof. destruct c as [[] [] [] [] [] [] [] []]; reflexivity. Qed.

Lemma toLowerCase_idemp (s : string) : toLowerCase (toLowerCase s) = toLowerCase s.
Proof. induction s as [|c s IH]; simpl; [done|by rewrite lowerChar_idemp, IH]. Qed.

Lemma toLowerCase_empty (s : string) : toLowerCase s = "" <-> s = "".
Proof. by destruct s. Qed.

Lemma filter_sublist {A} (f : A -> bool) (l : list A) : List.filter f l `sublist_of` l.
Proof.
  induction l as [|x l IH]; simpl; [done|].
  destruct (f x); [by apply sublist_skip|by apply sublist_cons].
Qed.

Lemma filter_sublist_impl {A} (f g : A -> bool) (l : list A) :
  (forall x, f x = true -> g x = true) ->
  List.filter f l `sublist_of` List.filter g l.
Proof.
  intros Hfg. induction l as [|x l IH]; simpl; [done|].
  destruct (f x) eqn:Hf.
  - rewrite (Hfg x Hf). by apply sublist_skip.
  - destruct (g x); [by apply sublist_cons|done].
Qed.

Lemma matchesTerm_spec (t : string) (p : Product) :
  matchesTerm (toLowerCase t) p = true <-> fieldContains p t.
Proof.
  unfold matchesTerm, fieldContains. rewrite orb_true_iff. split.
  - intros [H|H].
    + destruct (product_name p) as [name|]; [|done].
      apply includes_spec in H as (a & b & H). exists name, a, b. auto.
    + destruct (product_sku p) as [sku|]; [|done].
      apply includes_spec in H as (a & b & H). exists sku, a, b. auto.
  - intros (field & a & b & [H|H] & Hab); rewrite H; [left|right];
      apply includes_spec; eauto.
Qed.

(** The dropdown lists the products in catalog order, none added: with an
    empty search box all of them, otherwise exactly those whose name or SKU
    contains the term, case ignored. *)
Theorem filteredProducts_spec (products : list Product) (searchTerm : string)
    (p : Product) :
  filteredProducts products "" = products /\
  filteredProducts products searchTerm `sublist_of` products /\
  (p ∈ filteredProducts products searchTerm
   <-> p ∈ products /\ (searchTerm = "" \/ fieldContains p searchTerm)).
Proof.
  split; [done|]. unfold filteredProducts.
  destruct (String.eqb_spec searchTerm "") as [->|Hne].
  - split; [done|]. tauto.
  - split; [apply filter_sublist|].
    rewrite list_elem_of_In, filter_In, <- list_elem_of_In, matchesTerm_spec.
    tauto.
Qed.

(** The search ignores the case of the term. *)
Theorem filteredProducts_case (products : list Product) (t t' : string) :
  toLowerCase t = toLowerCase t' ->
  filteredProducts products t = filteredProducts products t'.
Proof.
  intros H. unfold filteredProducts.
  destruct (String.eqb_spec t "") as [->|Hne];
    destruct (String.eqb_spec t' "") as [->|Hne'].
  - done.
  - destruct t'; [done|discriminate H].
  - destruct t; [done|discriminate H].
  - by rewrite H.
Qed.

Lemma filteredProducts_case_witness :
  filteredProducts [productNamed 1 "Widget" "W1"] "WID"
  = filteredProducts [productNamed 1 "Widget" "W1"] "wid".
Proof. apply filteredProducts_case. reflexivity. Defined.

(** Typing more never adds a product: when the new term contains the old one
    (case ignored), the new list is a sublist of the old. *)
Theorem filteredProducts_narrows (products : list Product) (t t' : string) :
  includes (toLowerCase t') (toLowerCase t) = true ->
  filteredProducts products t' `sublist_of` filteredProducts products t.
Proof.
  intros Hinc. unfold filteredProducts.
  destruct (String.eqb_spec t "") as [->|Hne];
    destruct (String.eqb_spec t' "") as [->|Hne']; simpl.
  - done.
  - apply filter_sublist.
  - destruct t as [|c t]; [done|]. simpl in Hinc. discriminate Hinc.
  - apply filter_sublist_impl. intros p. unfold matchesTerm.
    rewrite !orb_true_iff. intros [H|H]; [left|right].
    + destruct (product_name p); [|done]. by eapply includes_trans.
    + destruct (product_sku p); [|done]. by eapply includes_trans.
Qed.

Lemma filteredProducts_narrows_witness :
  filteredProducts [productNamed 1 "Widget" "W1"; productNamed 2 "Wire" "C2"] "wid"
  `sublist_of`
  filteredProducts [productNamed 1 "Widget" "W1"; productNamed 2 "Wire" "C2"] "Wi".
Proof. apply filteredProducts_narrows. reflexivity. Defined.

(** ** The selected product *)

Lemma string_of_Z_inj (a b : Z) : string_of_Z a = string_of_Z b -> a = b.
Proof.
  unfold string_of_Z. intros H. apply DecimalZ.to_int_inj.
  assert (Hnz : forall z, Z.to_int z <> Decimal.Pos Decimal.Nil /\
                          Z.to_int z <> Decimal.Neg Decimal.Nil).
  { intros [|p|p]; simpl; split; try discriminate;
      intros [= Hp]; by apply DecimalPos.Unsigned.to_uint_nonnil in Hp. }
  apply (f_equal NilZero.int_of_string) in H.
  rewrite !NilZero.isi in H by apply Hnz. by injection H.
Qed.

Lemma string_of_Z_nonempty (a : Z) : string_of_Z a <> "".
Proof.
  unfold string_of_Z. intros H.
  apply (f_equal NilZero.int_of_string) in H.
  rewrite NilZero.isi in H; [done| |];
    destruct a as [|p|p]; simpl; try discriminate;
    intros [= Hp]; by apply DecimalPos.Unsigned.to_uint_nonnil in Hp.
Qed.

(** With distinct product ids, picking a product's entry in the dropdown
    selects that very product: the values of the entries are pairwise
    different, and the selected product is the one whose id was picked.
    Nothing is selected while the selection is empty. *)
Theorem selectedProduct_picked (products : list Product) (p : Product) :
  NoDup (product_id <$> products) ->
  p ∈ products ->
  NoDup (item_value <$> (dropdownItem <$> products)) /\
  selectedProduct products (item_value (dropdownItem p)) = Some p /\
  selectedProduct products "" = None.
Proof.
  intros Hnd Hp. split; [|split].
  - rewrite <- list_fmap_compose.
    replace (item_value ∘ dropdownItem) with (string_of_Z ∘ product_id) by done.
    rewrite list_fmap_compose. apply NoDup_fmap_2; [|done].
    intros a b. apply string_of_Z_inj.
  - unfold selectedProduct. simpl.
    induction products as [|q l IH]; [by apply elem_of_nil in Hp|].
    simpl. apply NoDup_cons in Hnd as [Hq Hnd].
    destruct (String.eqb_spec (string_of_Z (product_id q)) (string_of_Z (product_id p)))
      as [Heq|Hne].
    + apply string_of_Z_inj in Heq.
      apply elem_of_cons in Hp as [->|Hp]; [done|].
      exfalso. apply Hq. rewrite Heq. by apply list_elem_of_fmap_2.
    + apply elem_of_cons in Hp as [->|Hp]; [done|]. by apply IH.
  - unfold selectedProduct. clear. induction products as [|q l IH]; [done|].
    simpl. destruct (String.eqb_spec (string_of_Z (product_id q)) "") as [Heq|_];
      [by apply string_of_Z_nonempty in Heq|done].
Qed.

Lemma selectedProduct_picked_witness :
  selectedProduct [productNamed 1 "Widget" "W1"; productNamed 12 "Wire" "C2"] "12"
  = Some (productNamed 12 "Wire" "C2").
Proof.
  pose proof (selectedProduct_picked
                [productNamed 1 "Widget" "W1"; productNamed 12 "Wire" "C2"]
                (productNamed 12 "Wire" "C2")) as H.
  destruct H as (_ & H & _); [| |exact H].
  - apply (bool_decide_unpack (NoDup [1; 12])). vm_compute. reflexivity.
  - apply list_elem_of_further, list_elem_of_here.
Defined.

(** ** Loading the catalog *)

(** [fetchProducts] always ends with the loading flag cleared and leaves the
    search box and the viewer's selection, logs and pagination alone. The
    catalog is replaced exactly when the response carries a product list
    (an empty one included); a rejection or an [undefined] response keeps the
    catalog and adds the one notification; a response without [data] or
    without [products] keeps the catalog silently. *)
Theorem fetchProducts_outcomes (o : ProductsOutcome) (page : Page) :
  let page' := fetchProducts_resume o (fetchProducts_start page) in
  let listOf :=
    match o with
    | ProductsResolved (Some response) => response_data response ≫= data_products
    | _ => None
    end in
  let failed :=
    match o with
    | ProductsRejected | ProductsResolved None => true
    | _ => false
    end in
  productsLoading page' = false /\
  searchTerm page' = searchTerm page /\
  products page' = default (products page) listOf /\
  toasts (viewer page')
  = (toasts (viewer page)
     ++ if failed then [ErrorToast "Failed to load products"] else [])%list /\
  selectedProductId (viewer page') = selectedProductId (viewer page) /\
  logs (viewer page') = logs (viewer page) /\
  pagination (viewer page') = pagination (viewer page).
Proof.
  destruct o as [|[response|]]; simpl; rewrite ?app_nil_r; try done.
  destruct (response_data response ≫= data_products); simpl;
    by rewrite ?app_nil_r.
Qed.

(** ** The logs section *)

Lemma renderLog_outcome (log : InventoryLog) :
  (typed log -> exists card, renderLog log = Ok card) /\
  (~ typed log -> renderLog log = Throw TypeError).
Proof.
  unfold typed, renderLog, getLogTypeStyles.
  destruct (type log) as [| |b|x|t| |];
    try (split; [by intros [t' [=]]|done]).
  split; [intros _|intros []; by exists t].
  repeat match goal with |- context [if ?b then _ else _] => destruct b end;
    by eexists.
Qed.

Lemma renderLogs_outcome (logs : list InventoryLog) :
  (Forall typed logs ->
   exists cards, renderLogs logs = Ok cards /\
     Forall2 (fun log card => renderLog log = Ok card) logs cards) /\
  (Exists (fun log => ~ typed log) logs -> renderLogs logs = Throw TypeError).
Proof.
  induction logs as [|log l [IHok IHthrow]]; simpl.
  - split; [intros _; exists []; by split; [|constructor]|].
    intros H. by apply Exists_nil in H.
  - destruct (renderLog_outcome log) as [Hok Hthrow]. split.
    + intros Htyped. apply Forall_cons in Htyped as [Hlog Hl].
      destruct (Hok Hlog) as [card Hcard]. destruct (IHok Hl) as (cards & Hcards & Hall).
      exists (card :: cards). rewrite Hcard, Hcards. split; [done|by constructor].
    + intros Hsome. destruct (renderLog log) as [card|[]] eqn:Hrender; [|done].
      apply Exists_cons in Hsome as [Hlog|Hl].
      * discriminate (Hthrow Hlog).
      * by rewrite (IHthrow Hl).
Qed.

(** When the type of every entry is a string, rendering the list gives one
    card per entry, in order, each the card of its entry. When the type of
    some entry is not a string (missing, [null], a number, ...), the whole
    list raises a TypeError: no card is drawn, not even for the entries that
    are in order. *)
Theorem renderLogs_cards (logs : list InventoryLog) :
  ((forall log, log ∈ logs -> typed log) ->
   exists cards, renderLogs logs = Ok cards /\
     length cards = length logs /\
     forall i log, logs !! i = Some log ->
       exists card, cards !! i = Some card /\ renderLog log = Ok card) /\
  ((exists log, log ∈ logs /\ ~ typed log) -> renderLogs logs = Throw TypeError).
Proof.
  destruct (renderLogs_outcome logs) as [Hok Hthrow]. split.
  - intros Htyped. destruct Hok as (cards & Hcards & Hall); [by apply Forall_forall|].
    exists cards. split; [done|]. split.
    + symmetry. by eapply Forall2_length.
    + intros i log Hlog.
      destruct (Forall2_lookup_l _ _ _ _ _ Hall Hlog) as (card & Hcard & Hrender).
      by exists card.
  - intros Hsome. by apply Hthrow, Exists_exists.
Qed.

Lemma renderLogs_cards_witness :
  (exists cards, renderLogs [sampleLog 50 30 20; logOf 2] = Ok cards /\
     length cards = 2%nat) /\
  renderLogs [sampleLog 50 30 20; numberedLog] = Throw TypeError.
Proof.
  split.
  - destruct (proj1 (renderLogs_cards [sampleLog 50 30 20; logOf 2]))
      as (cards & Hcards & Hlength & _).
    + intros log Hin. exists "sale".
      apply elem_of_cons in Hin as [->|Hin]; [reflexivity|].
      apply list_elem_of_singleton in Hin as ->. reflexivity.
    + by exists cards.
  - apply (proj2 (renderLogs_cards [sampleLog 50 30 20; numberedLog])).
    exists numberedLog. split; [apply list_elem_of_further, list_elem_of_here|].
    intros [t [=]].
Defined.

(** What the logs section shows, and when its render raises. Without a
    selection, while loading, or with an empty list it does not raise,
    whatever the entries in the state are; a non-empty list whose entries all
    have a string type is drawn with its pager; once a product is selected
    and nothing is loading, an entry whose type is not a string makes the
    render raise a TypeError. *)
Theorem logsSection_throws (st : State) :
  (selectedProductId st = "" -> logsSection st = Ok SelectPrompt) /\
  (selectedProductId st <> "" -> loading st = true -> logsSection st = Ok Spinner) /\
  (selectedProductId st <> "" -> loading st = false -> logs st = [] ->
   logsSection st = Ok (NoActivity (totalItems (pagination st)))) /\
  (selectedProductId st <> "" -> loading st = false -> logs st <> [] ->
   (forall log, log ∈ logs st -> typed log) ->
   exists cards, renderLogs (logs st) = Ok cards /\
     logsSection st
     = Ok (LogList (totalItems (pagination st)) cards (pagerOf (pagination st)))) /\
  (selectedProductId st <> "" -> loading st = false ->
   (exists log, log ∈ logs st /\ ~ typed log) ->
   logsSection st = Throw TypeError).
Proof.
  unfold logsSection.
  destruct (String.eqb_spec (selectedProductId st) "") as [Hsel|Hsel];
    [by repeat split|].
  split; [done|]. destruct (loading st); [by repeat split|].
  split; [done|].
  destruct (renderLogs_outcome (logs st)) as [Hok Hthrow].
  destruct (logs st) as [|log l] eqn:Hlogs.
  { do 2 (split; [done|]). intros _ _ (log & Hin & _). by apply elem_of_nil in Hin. }
  replace (length (log :: l) =? 0)%nat with false by done.
  split; [done|]. split.
  - intros _ _ _ Htyped.
    destruct Hok as (cards & Hcards & _); [by apply Forall_forall|].
    exists cards. by rewrite Hcards.
  - intros _ _ Hsome. by rewrite Hthrow by (by apply Exists_exists).
Qed.

Lemma logsSection_throws_witness :
  logsSection (loaded [sampleLog 50 30 20; numberedLog]) = Throw TypeError /\
  logsSection (showing [sampleLog 50 30 20; numberedLog]) = Ok Spinner.
Proof.
  pose proof (logsSection_throws (loaded [sampleLog 50 30 20; numberedLog]))
    as (_ & _ & _ & _ & Hthrow).
  pose proof (logsSection_throws (showing [sampleLog 50 30 20; numberedLog]))
    as (_ & Hspinner & _).
  split.
  - apply Hthrow; [discriminate|reflexivity|].
    exists numberedLog. split; [apply list_elem_of_further, list_elem_of_here|].
    intros [t [=]].
  - apply Hspinner; [discriminate|reflexivity].
Defined.

(** A non-empty reference is shown exactly once on a card: as the title when
    the entry has no reason, as the "Ref:" line when it has one. *)
Theorem reference_shown_once (log : InventoryLog) (card : LogCard) :
  renderLog log = Ok card ->
  reference log <> "" ->
  (reason log = "" -> card_title card = reference log /\ card_ref card = None) /\
  (reason log <> "" ->
   card_title card = reason log /\ card_ref card = Some (reference log)).
Proof.
  intros Hrender Href. unfold renderLog in Hrender.
  destruct (getLogTypeStyles (type log)) as [styles|]; [|discriminate].
  injection Hrender as <-. simpl.
  destruct (String.eqb_spec (reference log) ""); [done|].
  destruct (String.eqb_spec (reason log) ""); split; done.
Qed.

Lemma reference_shown_once_witness :
  exists card, renderLog (sampleLog 50 30 20) = Ok card /\
    card_title card = "INV-7" /\ card_ref card = None.
Proof.
  destruct (renderLog (sampleLog 50 30 20)) as [card|] eqn:H; [|discriminate].
  exists card. split; [reflexivity|].
  apply (proj1 (reference_shown_once (sampleLog 50 30 20) card H ltac:(discriminate))).
  reflexivity.
Defined.

(** ** The palette *)

Lemma CHART_COLORS_NoDup : NoDup CHART_COLORS.
Proof.
  unfold CHART_COLORS.
  repeat (apply NoDup_cons; split;
          [rewrite ?elem_of_cons, elem_of_nil; intros H;
           repeat (destruct H as [H|H]; [discriminate H|]); exact H|]).
  apply NoDup_nil_2.
Qed.

Lemma chartColor_inj (i j : nat) :
  (i < 10)%nat -> (j < 10)%nat -> chartColor i = chartColor j -> i = j.
Proof.
  unfold chartColor. intros Hi Hj. simpl length.
  rewrite !Nat.mod_small by done. intros H.
  destruct (lookup_lt_is_Some_2 CHART_COLORS i Hi) as [c Hc].
  eapply NoDup_lookup; [apply CHART_COLORS_NoDup|exact Hc|]. by rewrite <- H.
Qed.

Lemma chartColor_defined (index : nat) :
  exists c, chartColor index = Some c /\ c ∈ CHART_COLORS.
Proof.
  unfold chartColor.
  destruct (lookup_lt_is_Some_2 CHART_COLORS (index mod length CHART_COLORS))
    as [c Hc]; [apply Nat.mod_upper_bound; done|].
  exists c. split; [done|]. by eapply list_elem_of_lookup_2.
Qed.

(** Every rank has a colour of the palette (never [undefined]), ranks ten
    apart share their colour, and the first ten ranks get ten different
    colours. *)
Theorem chartColor_cycle (index : nat) :
  (exists c, chartColor index = Some c /\ c ∈ CHART_COLORS) /\
  chartColor (index + 10) = chartColor index /\
  NoDup (chartColor <$> seq 0 10).
Proof.
  split; [apply chartColor_defined|split].
  - unfold chartColor. simpl length.
    replace (index + 10)%nat with (index + 1 * 10)%nat by lia.
    by rewrite Nat.Div0.mod_add.
  - apply NoDup_fmap_2_strong; [|apply NoDup_seq].
    intros i j Hi Hj. apply elem_of_seq in Hi, Hj. apply chartColor_inj; lia.
Qed.

Lemma imap_colouredApart {A B} (entry : nat -> A -> B) (color : B -> option string)
    (top : list A) :
  (forall i a, color (entry i a) = chartColor i) ->
  (length top <= 10)%nat ->
  colouredApart color (imap entry top).
Proof.
  intros Hcolor Hlen. split.
  - rewrite fmap_imap, (imap_ext _ (fun j _ => chartColor (0 + j))) by (intros; apply Hcolor).
    rewrite imap_seq. apply NoDup_fmap_2_strong; [|apply NoDup_seq].
    intros i j Hi Hj. apply elem_of_seq in Hi, Hj. apply chartColor_inj; lia.
  - intros i b Hb. rewrite list_lookup_imap in Hb.
    destruct (top !! i) as [a|]; [|done]. injection Hb as <-.
    rewrite Hcolor. split; [done|].
    destruct (chartColor_defined i) as [c [Hc _]]. by exists c.
Qed.

(** ** The monthly report: one render *)

Lemma bind_Some {A B C} (m : M A B) (k : B -> M A C) (s s' : store A) (b : B) :
  m s = Some (b, s') -> bind m k s = k b s'.
Proof. unfold bind. by intros ->. Qed.

Lemma projection_run {A B} (compareFn : A -> A -> Z) (n : nat)
    (entry : nat -> A -> B) (s : store A) (r : ref) (l : list A) :
  s !! r = Some l ->
  (let* top := sortedTop compareFn n (Some r) in ret (imap entry top)) s
  = Some (imap entry (take n (sort compareFn l)),
          (s ++ [sort compareFn l; take n (sort compareFn l)])%list).
Proof.
  intros Hr. by rewrite (bind_Some _ _ _ _ _ (sortedTop_run compareFn n s r l Hr)).
Qed.

Lemma projection_run_none {A B} (compareFn : A -> A -> Z) (n : nat)
    (entry : nat -> A -> B) (s : store A) :
  (let* top := sortedTop compareFn n None in ret (imap entry top)) s
  = Some ([], (s ++ [[]; []; []])%list).
Proof.
  unfold sortedTop, spread, slice, sortInPlace, contents, alloc, bind, ret.
  rewrite lookup_app_r, Nat.sub_diag by lia. simpl.
  rewrite length_app. simpl.
  rewrite lookup_app_r; rewrite length_app; simpl; [|lia].
  rewrite Nat.sub_diag. simpl.
  rewrite insert_app_r_alt; rewrite length_app; simpl; [|lia].
  rewrite Nat.sub_diag. simpl.
  rewrite lookup_app_r; rewrite length_app; simpl; [|lia].
  rewrite Nat.sub_diag. simpl. rewrite take_nil. simpl.
  rewrite !length_app. simpl.
  rewrite lookup_app_r; rewrite !length_app; simpl; [|lia].
  rewrite Nat.sub_diag. simpl.
  by rewrite <- !app_assoc.
Qed.

Lemma Legacy_render_run (q : Legacy.Query) (s : store Legacy.CategorySalesData)
    (data : Legacy.MonthlyReportData) (r : ref) (cats : list Legacy.CategorySalesData) :
  Legacy.reportData q = Some (Some data) ->
  Legacy.categories data = Some r ->
  s !! r = Some cats ->
  exists s', s `prefix_of` s' /\
    Legacy.MonthlyReportCard q s = Some (legacyView q data cats, s').
Proof.
  intros Hdata Hcats Hr. unfold Legacy.MonthlyReportCard, Legacy.report, legacyView.
  rewrite Hdata. unfold bind at 1, ret at 1. rewrite Hcats.
  set (top := sort Legacy.compareFn cats).
  unfold Legacy.barChartData.
  rewrite (bind_Some _ _ _ _ _ (projection_run Legacy.compareFn 8 Legacy.barDatum s r cats Hr)).
  fold top. set (s1 := (s ++ [top; take 8 top])%list).
  assert (Hr1 : s1 !! r = Some cats) by (by apply lookup_app_l_Some).
  unfold Legacy.pieChartData.
  rewrite (bind_Some _ _ _ _ _ (projection_run Legacy.compareFn 6 Legacy.pieDatum s1 r cats Hr1)).
  fold top. set (s2 := (s1 ++ [top; take 6 top])%list).
  assert (Hr2 : s2 !! r = Some cats) by (by apply lookup_app_l_Some).
  assert (Hs2 : s `prefix_of` s2) by (by do 2 apply prefix_app_r).
  destruct (Legacy.isLoading q); [by exists s2|].
  destruct (Legacy.queryError q); [by exists s2|].
  unfold bind at 1, contents at 1. rewrite Hr2.
  destruct (length cats =? 0)%nat; [by exists s2|].
  unfold Legacy.tableRows.
  rewrite (bind_Some _ _ _ _ _ (projection_run Legacy.compareFn 10 Legacy.tableRow s2 r cats Hr2)).
  fold top. eexists. split; [|by destruct (Legacy.totalQuantitySold data)].
  by apply prefix_app_r.
Qed.

Lemma Legacy_render_missing (q : Legacy.Query) (s : store Legacy.CategorySalesData)
    (data : Legacy.MonthlyReportData) :
  Legacy.reportData q = Some (Some data) ->
  Legacy.categories data = None ->
  exists s', s `prefix_of` s' /\
    Legacy.MonthlyReportCard q s
    = Some (if Legacy.isLoading q then Ok Legacy.Skeleton
            else if Legacy.queryError q then Ok Legacy.ErrorPanel
            else Throw TypeError, s').
Proof.
  intros Hdata Hcats. unfold Legacy.MonthlyReportCard, Legacy.report.
  rewrite Hdata. unfold bind at 1, ret at 1. rewrite Hcats.
  unfold Legacy.barChartData.
  rewrite (bind_Some _ _ _ _ _ (projection_run_none Legacy.compareFn 8 Legacy.barDatum s)).
  unfold Legacy.pieChartData.
  rewrite (bind_Some _ _ _ _ _ (projection_run_none Legacy.compareFn 6 Legacy.pieDatum _)).
  eexists. split; [by do 2 apply prefix_app_r|].
  destruct (Legacy.isLoading q); [done|]. by destruct (Legacy.queryError q).
Qed.

Lemma Legacy_render_default (q : Legacy.Query) (s : store Legacy.CategorySalesData) :
  Legacy.reportData q = None \/ Legacy.reportData q = Some None ->
  exists s', s `prefix_of` s' /\
    Legacy.MonthlyReportCard q s
    = Some (if Legacy.isLoading q then Ok Legacy.Skeleton
            else if Legacy.queryError q then Ok Legacy.ErrorPanel
            else Ok (Legacy.EmptyState "0" "0"), s').
Proof.
  intros Hdata.
  assert (Hreport : Legacy.report q s
    = Some ({| Legacy.month := None; Legacy.year := None; Legacy.daysElapsed := None;
                Legacy.totalDays := None; Legacy.categories := Some (length s);
                Legacy.totalQuantitySold := Some 0;
                Legacy.report_totalRevenue := Some 0;
                Legacy.totalProducts := Some 0 |}, (s ++ [[]])%list)).
  { unfold Legacy.report. by destruct Hdata as [-> | ->]. }
  unfold Legacy.MonthlyReportCard. rewrite (bind_Some _ _ _ _ _ Hreport).
  cbn [Legacy.categories Legacy.totalQuantitySold Legacy.report_totalRevenue].
  set (s0 := (s ++ [[]])%list).
  assert (Hr : s0 !! length s = Some []).
  { unfold s0. by rewrite lookup_app_r, Nat.sub_diag by lia. }
  unfold Legacy.barChartData.
  rewrite (bind_Some _ _ _ _ _
             (projection_run Legacy.compareFn 8 Legacy.barDatum s0 _ [] Hr)).
  set (s1 := (s0 ++ _)%list).
  assert (Hr1 : s1 !! length s = Some []) by (by apply lookup_app_l_Some).
  unfold Legacy.pieChartData.
  rewrite (bind_Some _ _ _ _ _
             (projection_run Legacy.compareFn 6 Legacy.pieDatum s1 _ [] Hr1)).
  set (s2 := (s1 ++ _)%list).
  assert (Hr2 : s2 !! length s = Some []) by (by apply lookup_app_l_Some).
  exists s2. split; [by do 3 apply prefix_app_r|].
  destruct (Legacy.isLoading q); [done|]. destruct (Legacy.queryError q); [done|].
  unfold bind at 1, contents at 1. by rewrite Hr2.
Qed.

Lemma Legacy_render_dangling (q : Legacy.Query) (s : store Legacy.CategorySalesData)
    (data : Legacy.MonthlyReportData) (r : ref) :
  Legacy.reportData q = Some (Some data) ->
  Legacy.categories data = Some r ->
  s !! r = None ->
  Legacy.MonthlyReportCard q s = None.
Proof.
  intros Hdata Hcats Hr. unfold Legacy.MonthlyReportCard, Legacy.report.
  rewrite Hdata. unfold bind at 1, ret at 1. rewrite Hcats.
  unfold Legacy.barChartData, sortedTop, spread, contents, bind, ret.
  by rewrite Hr.
Qed.

(** In the success state (not loading, no query error) the
    monthly-category-sales widget raises a TypeError when the report has no
    [categories], and also when its category list is not empty but
    [totalQuantitySold] is missing: the table footer reads it without a
    guard. With an empty category list the same missing total does not
    raise; the empty state is shown and the units badge reads ["0"]. *)
Theorem Legacy_render_throws (q : Legacy.Query) (s : store Legacy.CategorySalesData)
    (data : Legacy.MonthlyReportData) :
  Legacy.reportData q = Some (Some data) ->
  Legacy.isLoading q = false ->
  Legacy.queryError q = false ->
  (Legacy.categories data = None ->
   exists s', Legacy.MonthlyReportCard q s = Some (Throw TypeError, s')) /\
  (forall r cats, Legacy.categories data = Some r -> s !! r = Some cats ->
     Legacy.totalQuantitySold data = None ->
     (cats <> [] ->
      exists s', Legacy.MonthlyReportCard q s = Some (Throw TypeError, s')) /\
     (cats = [] ->
      exists s', Legacy.MonthlyReportCard q s
                 = Some (Ok (Legacy.EmptyState "0"
                               (Legacy.formatField (Legacy.report_totalRevenue data))),
                         s'))).
Proof.
  intros Hdata Hloading Herror. split.
  - intros Hcats.
    destruct (Legacy_render_missing q s data Hdata Hcats) as (s' & _ & H).
    exists s'. by rewrite H, Hloading, Herror.
  - intros r cats Hcats Hr Htotal.
    destruct (Legacy_render_run q s data r cats Hdata Hcats Hr) as (s' & _ & H).
    unfold legacyView in H. rewrite Hloading, Herror, Htotal in H.
    split; intros Hlist; exists s'; rewrite H.
    + by destruct cats.
    + by rewrite Hlist.
Qed.

Lemma Legacy_render_throws_witness :
  exists s', Legacy.MonthlyReportCard reportWithoutTotal [[catA; catB]]
             = Some (Throw TypeError, s').
Proof.
  pose proof (Legacy_render_throws reportWithoutTotal [[catA; catB]] _
                eq_refl eq_refl eq_refl) as [_ H].
  by apply (H 0%nat [catA; catB] eq_refl eq_refl eq_refl).
Defined.

Lemma Legacy_render_charts_inv (q : Legacy.Query) (s s' : store Legacy.CategorySalesData)
    (ub rb : string) (bars : list Legacy.BarDatum) (pies : list Legacy.PieDatum)
    (rows : list Legacy.TableRow) :
  Legacy.MonthlyReportCard q s = Some (Ok (Legacy.Charts ub rb bars pies rows), s') ->
  exists cats, let top := sort Legacy.compareFn cats in
    s `prefix_of` s' /\
    bars = imap Legacy.barDatum (take 8 top) /\
    pies = imap Legacy.pieDatum (take 6 top) /\
    rows = imap Legacy.tableRow (take 10 top).
Proof.
  intros Hrender.
  destruct (Legacy.reportData q) as [[data|]|] eqn:Hdata.
  - destruct (Legacy.categories data) as [r|] eqn:Hcats.
    + destruct (s !! r) as [cats|] eqn:Hr.
      * destruct (Legacy_render_run q s data r cats Hdata Hcats Hr) as (s1 & Hpre & H).
        rewrite H in Hrender. injection Hrender as Hview <-.
        exists cats. split; [done|]. unfold legacyView in Hview.
        destruct (Legacy.isLoading q); [done|]. destruct (Legacy.queryError q); [done|].
        destruct (length cats =? 0)%nat; [done|].
        destruct (Legacy.totalQuantitySold data); [|done].
        by injection Hview as _ _ <- <- <-.
      * by rewrite (Legacy_render_dangling q s data r Hdata Hcats Hr) in Hrender.
    + destruct (Legacy_render_missing q s data Hdata Hcats) as (s1 & _ & H).
      rewrite H in Hrender. injection Hrender as Hview _.
      destruct (Legacy.isLoading q); [done|]. by destruct (Legacy.queryError q).
  - destruct (Legacy_render_default q s) as (s1 & _ & H); [by right|].
    rewrite H in Hrender. injection Hrender as Hview _.
    destruct (Legacy.isLoading q); [done|]. by destruct (Legacy.queryError q).
  - destruct (Legacy_render_default q s) as (s1 & _ & H); [by left|].
    rewrite H in Hrender. injection Hrender as Hview _.
    destruct (Legacy.isLoading q); [done|]. by destruct (Legacy.queryError q).
Qed.

(** In the rendered charts of the monthly-category-sales widget the three
    views show one ranking: the pie chart shows the first six bars and the
    bar chart the first eight table rows, entry by entry with the same
    category, quantity, revenue and colour. The arrays that existed before
    the render are left as they were. *)
Theorem Legacy_views_agree (q : Legacy.Query) (s s' : store Legacy.CategorySalesData)
    (ub rb : string) (bars : list Legacy.BarDatum) (pies : list Legacy.PieDatum)
    (rows : list Legacy.TableRow) :
  Legacy.MonthlyReportCard q s = Some (Ok (Legacy.Charts ub rb bars pies rows), s') ->
  s `prefix_of` s' /\
  length pies = Nat.min 6 (length bars) /\
  length bars = Nat.min 8 (length rows) /\
  (forall i pie, pies !! i = Some pie ->
     exists bar, bars !! i = Some bar /\
       Legacy.pie_name pie = truncateName 15 (Legacy.bar_fullName bar) /\
       Legacy.pie_value pie = Legacy.bar_quantity bar /\
       Legacy.pie_revenue pie = Legacy.bar_revenue bar /\
       Legacy.pie_color pie = Legacy.bar_fill bar) /\
  (forall i bar, bars !! i = Some bar ->
     exists row, rows !! i = Some row /\
       Legacy.row_category row = Legacy.bar_fullName bar /\
       Legacy.row_quantity row = Legacy.bar_quantity bar /\
       Legacy.row_products row = Legacy.bar_products bar /\
       Legacy.row_color row = Legacy.bar_fill bar).
Proof.
  intros Hrender.
  destruct (Legacy_render_charts_inv _ _ _ _ _ _ _ _ Hrender)
    as (cats & Hpre & -> & -> & ->).
  set (top := sort Legacy.compareFn cats).
  split; [done|]. rewrite !length_imap, !length_take.
  split; [lia|]. split; [lia|]. split.
  - intros i pie Hpie. rewrite list_lookup_imap in Hpie.
    destruct (take 6 top !! i) as [c|] eqn:Hc; [|done]. injection Hpie as <-.
    apply lookup_take_Some in Hc as [Hc Hi].
    exists (Legacy.barDatum i c). split; [|done].
    rewrite list_lookup_imap, lookup_take_lt by lia. by rewrite Hc.
  - intros i bar Hbar. rewrite list_lookup_imap in Hbar.
    destruct (take 8 top !! i) as [c|] eqn:Hc; [|done]. injection Hbar as <-.
    apply lookup_take_Some in Hc as [Hc Hi].
    exists (Legacy.tableRow i c). split; [|done].
    rewrite list_lookup_imap, lookup_take_lt by lia. by rewrite Hc.
Qed.

Lemma Legacy_views_agree_witness :
  exists ub rb bars pies rows s',
    Legacy.MonthlyReportCard reportOk [[catA; catB]]
    = Some (Ok (Legacy.Charts ub rb bars pies rows), s') /\
    length pies = Nat.min 6 (length bars) /\
    length bars = Nat.min 8 (length rows).
Proof.
  destruct (Legacy.MonthlyReportCard reportOk [[catA; catB]])
    as [[[[| |ub rb|ub rb bars pies rows]|e] s']|] eqn:H;
    try (vm_compute in H; discriminate H).
  exists ub, rb, bars, pies, rows, s'. split; [reflexivity|].
  pose proof (Legacy_views_agree reportOk [[catA; catB]] s' ub rb bars pies rows H)
    as (_ & H1 & H2 & _).
  by split.
Defined.

(** In each view of the rendered charts every entry carries the palette
    colour of its rank, and no two entries of one view share a colour. *)
Theorem Legacy_colours_apart (q : Legacy.Query) (s s' : store Legacy.CategorySalesData)
    (ub rb : string) (bars : list Legacy.BarDatum) (pies : list Legacy.PieDatum)
    (rows : list Legacy.TableRow) :
  Legacy.MonthlyReportCard q s = Some (Ok (Legacy.Charts ub rb bars pies rows), s') ->
  colouredApart Legacy.bar_fill bars /\
  colouredApart Legacy.pie_color pies /\
  colouredApart Legacy.row_color rows.
Proof.
  intros Hrender.
  destruct (Legacy_render_charts_inv _ _ _ _ _ _ _ _ Hrender)
    as (cats & Hpre & -> & -> & ->).
  split; [|split]; apply imap_colouredApart; try done; rewrite length_take; lia.
Qed.

Lemma Legacy_colours_apart_witness :
  exists ub rb bars pies rows s',
    Legacy.MonthlyReportCard reportOk [[catA; catB]]
    = Some (Ok (Legacy.Charts ub rb bars pies rows), s') /\
    colouredApart Legacy.bar_fill bars.
Proof.
  destruct (Legacy.MonthlyReportCard reportOk [[catA; catB]])
    as [[[[| |ub rb|ub rb bars pies rows]|e] s']|] eqn:H;
    try (vm_compute in H; discriminate H).
  exists ub, rb, bars, pies, rows, s'. split; [reflexivity|].
  apply (Legacy_colours_apart reportOk [[catA; catB]] s' ub rb bars pies rows H).
Defined.

(** ** The enhanced-stats widget: one render *)

Lemma Enhanced_render_from (enhancedData : option Enhanced.EnhancedStats)
    (isLoading queryError : bool) (s : store Enhanced.CategoryPerformance)
    (r : ref) (cats : list Enhanced.CategoryPerformance) :
  s !! r = Some cats ->
  exists s', s `prefix_of` s' /\
    (let* cats := contents r in
     let units := Enhanced.totalQuantitySold cats in
     let revenue := Enhanced.totalRevenue enhancedData cats in
     let* bars := Enhanced.barChartData r in
     let* pies := Enhanced.pieChartData r in
     if isLoading then ret Enhanced.Skeleton
     else if queryError then ret Enhanced.ErrorPanel
     else
       let unitsBadge := formatNumber (number_of_Z units) in
       let revenueBadge := formatNumber (number_of_Z revenue) in
       let* cats' := contents r in
       if (length cats' =? 0)%nat then ret (Enhanced.EmptyState unitsBadge revenueBadge)
       else
         let* rows := Enhanced.tableRows r in
         ret (Enhanced.Charts unitsBadge revenueBadge bars pies rows units revenueBadge)) s
    = Some (enhancedView enhancedData isLoading queryError cats, s').
Proof.
  intros Hr. unfold enhancedView.
  unfold bind at 1, contents at 1. rewrite Hr. cbv zeta.
  set (top := sort Enhanced.compareFn cats).
  unfold Enhanced.barChartData.
  rewrite (bind_Some _ _ _ _ _
             (projection_run Enhanced.compareFn 8 Enhanced.barDatum s r cats Hr)).
  fold top. set (s1 := (s ++ [top; take 8 top])%list).
  assert (Hr1 : s1 !! r = Some cats) by (by apply lookup_app_l_Some).
  unfold Enhanced.pieChartData.
  rewrite (bind_Some _ _ _ _ _
             (projection_run Enhanced.compareFn 6 Enhanced.pieDatum s1 r cats Hr1)).
  fold top. set (s2 := (s1 ++ [top; take 6 top])%list).
  assert (Hr2 : s2 !! r = Some cats) by (by apply lookup_app_l_Some).
  assert (Hs2 : s `prefix_of` s2) by (by do 2 apply prefix_app_r).
  destruct isLoading; [by exists s2|]. destruct queryError; [by exists s2|].
  unfold bind at 1, contents at 1. rewrite Hr2.
  destruct (length cats =? 0)%nat; [by exists s2|].
  unfold Enhanced.tableRows.
  rewrite (bind_Some _ _ _ _ _
             (projection_run Enhanced.compareFn 10 Enhanced.tableRow s2 r cats Hr2)).
  fold top. eexists. split; [|done]. by apply prefix_app_r.
Qed.

Lemma Enhanced_render_run (enhancedData : option Enhanced.EnhancedStats)
    (isLoading queryError : bool) (s : store Enhanced.CategoryPerformance)
    (cats : list Enhanced.CategoryPerformance) :
  categoryList enhancedData s = Some cats ->
  exists s', s `prefix_of` s' /\
    Enhanced.MonthlyReportCard enhancedData isLoading queryError s
    = Some (enhancedView enhancedData isLoading queryError cats, s').
Proof.
  unfold categoryList, Enhanced.MonthlyReportCard, Enhanced.categoryPerformanceOf.
  destruct (((enhancedData ≫= Enhanced.data) ≫= Enhanced.performance)
            ≫= Enhanced.categoryPerformance) as [r|].
  - intros Hr. unfold bind at 1, ret at 1.
    apply (Enhanced_render_from enhancedData isLoading queryError s r cats Hr).
  - intros [= <-]. unfold bind at 1, alloc at 1.
    destruct (Enhanced_render_from enhancedData isLoading queryError
                (s ++ [[]]) (length s) []) as (s' & Hpre & H).
    { by rewrite lookup_app_r, Nat.sub_diag by lia. }
    exists s'. split; [|done]. etrans; [|exact Hpre]. by apply prefix_app_r.
Qed.

Lemma Enhanced_render_dangling (enhancedData : option Enhanced.EnhancedStats)
    (isLoading queryError : bool) (s : store Enhanced.CategoryPerformance) :
  categoryList enhancedData s = None ->
  Enhanced.MonthlyReportCard enhancedData isLoading queryError s = None.
Proof.
  unfold categoryList, Enhanced.MonthlyReportCard, Enhanced.categoryPerformanceOf.
  destruct (((enhancedData ≫= Enhanced.data) ≫= Enhanced.performance)
            ≫= Enhanced.categoryPerformance) as [r|]; [|done].
  intros Hr. unfold bind, ret, contents. by rewrite Hr.
Qed.

(** The enhanced-stats widget shows the empty state exactly when there is no
    category to show: the list is empty, or any link of
    [data.performance.categoryPerformance] is missing. The units badge is
    then ["0"] and the revenue badge is the backend's month revenue (0 when
    missing). Existing arrays are left as they were. *)
Theorem Enhanced_empty_state (enhancedData : option Enhanced.EnhancedStats)
    (s : store Enhanced.CategoryPerformance) (cats : list Enhanced.CategoryPerformance) :
  categoryList enhancedData s = Some cats ->
  exists view s',
    Enhanced.MonthlyReportCard enhancedData false false s = Some (view, s') /\
    s `prefix_of` s' /\
    (cats = [] <-> exists ub rb, view = Enhanced.EmptyState ub rb) /\
    (cats = [] ->
     view = Enhanced.EmptyState "0"
              (formatNumber (number_of_Z
                 (or_else (((enhancedData ≫= Enhanced.data) ≫= Enhanced.financial)
                           ≫= Enhanced.monthRevenue) 0)))).
Proof.
  intros Hcats.
  destruct (Enhanced_render_run enhancedData false false s cats Hcats) as (s' & Hpre & H).
  eexists _, s'. split; [exact H|]. split; [done|].
  unfold enhancedView. destruct cats as [|c cats]; simpl.
  - split; [|done]. split; [|done]. intros _. by eexists _, _.
  - split; [|done]. split; [done|]. by intros (ub & rb & [=]).
Qed.

Lemma Enhanced_empty_state_witness :
  exists s', Enhanced.MonthlyReportCard
               (Some {| Enhanced.data :=
                          Some {| Enhanced.performance := None;
                                  Enhanced.financial :=
                                    Some {| Enhanced.monthRevenue := Some 1500 |} |} |})
               false false [] = Some (Enhanced.EmptyState "0" "1.5K", s').
Proof.
  destruct (Enhanced_empty_state
              (Some {| Enhanced.data :=
                         Some {| Enhanced.performance := None;
                                 Enhanced.financial :=
                                   Some {| Enhanced.monthRevenue := Some 1500 |} |} |})
              [] []) as (view & s' & H & _ & _ & Hview); [reflexivity|].
  exists s'. rewrite H. by rewrite Hview.
Defined.



Lemma Enhanced_render_charts_inv (enhancedData : option Enhanced.EnhancedStats)
    (isLoading queryError : bool) (s s' : store Enhanced.CategoryPerformance)
    (ub rb footer : string) (units : Z) (bars : list Enhanced.BarDatum)
    (pies : list Enhanced.PieDatum) (rows : list Enhanced.TableRow) :
  Enhanced.MonthlyReportCard enhancedData isLoading queryError s
  = Some (Enhanced.Charts ub rb bars pies rows units footer, s') ->
  exists cats, let top := sort Enhanced.compareFn cats in
    categoryList enhancedData s = Some cats /\
    s `prefix_of` s' /\
    bars = imap Enhanced.barDatum (take 8 top) /\
    pies = imap Enhanced.pieDatum (take 6 top) /\
    rows = imap Enhanced.tableRow (take 10 top) /\
    units = Enhanced.totalQuantitySold cats /\
    ub = formatNumber (number_of_Z units) /\
    rb = formatNumber (number_of_Z (Enhanced.totalRevenue enhancedData cats)) /\
    footer = rb.
Proof.
  intros Hrender.
  destruct (categoryList enhancedData s) as [cats|] eqn:Hcats.
  - destruct (Enhanced_render_run enhancedData isLoading queryError s cats Hcats)
      as (s1 & Hpre & H).
    rewrite H in Hrender. injection Hrender as Hview <-.
    exists cats. split; [done|]. split; [done|]. unfold enhancedView in Hview.
    destruct isLoading; [done|]. destruct queryError; [done|].
    destruct (length cats =? 0)%nat; [done|].
    by injection Hview as <- <- <- <- <- <- <-.
  - by rewrite (Enhanced_render_dangling enhancedData isLoading queryError s Hcats)
      in Hrender.
Qed.

(** In the rendered charts of the enhanced-stats widget the three views show
    one ranking, entry by entry with the same category, quantity and colour;
    every entry carries the palette colour of its rank and no two entries of
    one view share a colour; the footer repeats the header's revenue. The
    arrays that existed before the render are left as they were. *)
Theorem Enhanced_views_agree (enhancedData : option Enhanced.EnhancedStats)
    (isLoading queryError : bool) (s s' : store Enhanced.CategoryPerformance)
    (ub rb footer : string) (units : Z) (bars : list Enhanced.BarDatum)
    (pies : list Enhanced.PieDatum) (rows : list Enhanced.TableRow) :
  Enhanced.MonthlyReportCard enhancedData isLoading queryError s
  = Some (Enhanced.Charts ub rb bars pies rows units footer, s') ->
  s `prefix_of` s' /\ footer = rb /\
  length pies = Nat.min 6 (length bars) /\
  length bars = Nat.min 8 (length rows) /\
  (forall i pie, pies !! i = Some pie ->
     exists bar, bars !! i = Some bar /\
       Enhanced.pie_name pie = truncateName 15 (Enhanced.bar_fullName bar) /\
       Enhanced.pie_value pie = Enhanced.bar_quantity bar /\
       Enhanced.pie_revenue pie = Enhanced.bar_revenue bar /\
       Enhanced.pie_color pie = Enhanced.bar_fill bar) /\
  (forall i bar, bars !! i = Some bar ->
     exists row, rows !! i = Some row /\
       Enhanced.row_category row = Enhanced.bar_fullName bar /\
       Enhanced.row_quantity row = Enhanced.bar_quantity bar /\
       Enhanced.row_color row = Enhanced.bar_fill bar) /\
  colouredApart Enhanced.bar_fill bars /\
  colouredApart Enhanced.pie_color pies /\
  colouredApart Enhanced.row_color rows.
Proof.
  intros Hrender.
  destruct (Enhanced_render_charts_inv _ _ _ _ _ _ _ _ _ _ _ _ Hrender)
    as (cats & _ & Hpre & -> & -> & -> & _ & _ & _ & Hfooter).
  set (top := sort Enhanced.compareFn cats).
  split; [done|]. split; [done|]. rewrite !length_imap, !length_take.
  split; [lia|]. split; [lia|]. split; [|split].
  - intros i pie Hpie. rewrite list_lookup_imap in Hpie.
    destruct (take 6 top !! i) as [c|] eqn:Hc; [|done]. injection Hpie as <-.
    apply lookup_take_Some in Hc as [Hc Hi].
    exists (Enhanced.barDatum i c). split; [|done].
    rewrite list_lookup_imap, lookup_take_lt by lia. by rewrite Hc.
  - intros i bar Hbar. rewrite list_lookup_imap in Hbar.
    destruct (take 8 top !! i) as [c|] eqn:Hc; [|done]. injection Hbar as <-.
    apply lookup_take_Some in Hc as [Hc Hi].
    exists (Enhanced.tableRow i c). split; [|done].
    rewrite list_lookup_imap, lookup_take_lt by lia. by rewrite Hc.
  - split; [|split]; apply imap_colouredApart; try done; rewrite length_take; lia.
Qed.

Lemma Enhanced_views_agree_witness :
  exists ub rb bars pies rows units footer s',
    Enhanced.MonthlyReportCard (statsWith (Some 0%nat) (Some 900)) false false
      [[perfA; perfB]]
    = Some (Enhanced.Charts ub rb bars pies rows units footer, s') /\
    footer = rb /\ length pies = Nat.min 6 (length bars).
Proof.
  destruct (Enhanced.MonthlyReportCard (statsWith (Some 0%nat) (Some 900)) false false
              [[perfA; perfB]])
    as [[[| |ub rb|ub rb bars pies rows units footer] s']|] eqn:H;
    try (vm_compute in H; discriminate H).
  exists ub, rb, bars, pies, rows, units, footer, s'. split; [reflexivity|].
  pose proof (Enhanced_views_agree _ _ _ _ _ _ _ _ _ _ _ _ H) as (_ & H1 & H2 & _).
  by split.
Defined.



(** ** The viewer's buttons and requests *)

(** A click does something exactly when its button is drawn enabled, and
    then it requests, for the selected product, the current page (Refresh),
    the page before it, never below 1 (Previous), or the page after it, never
    beyond the last (Next). Logs, pagination and selection are untouched. *)
Theorem buttons_request_pages (st : State) (section : LogsSection) :
  logsSection st = Ok section ->
  let page := currentPage (pagination st) in
  let ask p := fetchLogs_start (selectedProductId st) p st in
  step Refresh st = (if refreshEnabled section then ask page else st) /\
  step PreviousPage st = (if previousEnabled section then ask (page - 1) else st) /\
  step NextPage st = (if nextEnabled section then ask (page + 1) else st) /\
  (previousEnabled section = true -> 1 <= page - 1) /\
  (nextEnabled section = true -> page + 1 <= totalPages (pagination st)) /\
  (refreshEnabled section = true ->
   forall p, inflight (ask p)
             = (inflight st ++ [{| req_productId := selectedProductId st;
                                   req_page := p |}])%list /\
             logs (ask p) = logs st /\ pagination (ask p) = pagination st /\
             selectedProductId (ask p) = selectedProductId st /\
             loading (ask p) = true).
Proof.
  intros Hsection page ask. subst page ask.
  unfold logsSection in Hsection. unfold step, paginationShown, fetchLogs_start.
  destruct (String.eqb_spec (selectedProductId st) "") as [Hsel|Hsel].
  { injection Hsection as <-. by simpl. }
  destruct (loading st).
  { injection Hsection as <-. simpl. by rewrite ?andb_false_r. }
  destruct (logs st) as [|log l] eqn:Hlogs.
  { injection Hsection as <-. simpl. by rewrite ?andb_false_r. }
  replace (length (log :: l) =? 0)%nat with false in * by done.
  destruct (renderLogs (log :: l)) as [cards|]; [|done].
  injection Hsection as <-. unfold pagerOf. simpl.
  destruct (Z.ltb_spec 1 (totalPages (pagination st))); simpl; [|done].
  destruct (Z.leb_spec (currentPage (pagination st)) 1);
    destruct (Z.leb_spec (totalPages (pagination st)) (currentPage (pagination st)));
    simpl; repeat split; try done; lia.
Qed.

Lemma buttons_request_pages_witness :
  let st := setPagination {| currentPage := 1; totalPages := 3; totalItems := 45;
                             itemsPerPage := 20 |}
              (setLoading false (showing [sampleLog 50 30 20])) in
  step PreviousPage st = st /\
  inflight (step NextPage st) = [request "1" 2].
Proof.
  intros st.
  destruct (logsSection st) as [section|] eqn:H; [|vm_compute in H; discriminate H].
  pose proof (buttons_request_pages st section H) as (_ & Hprev & Hnext & _).
  injection H as <-. split; [exact Hprev|]. by rewrite Hnext.
Defined.

Lemma removeRequest_Forall (P : Request -> Prop) (q : Request) (l rest : list Request) :
  removeRequest q l = Some rest -> Forall P l -> Forall P rest.
Proof.
  revert rest. induction l as [|q' l IH]; intros rest; simpl; [done|].
  destruct (_ && _).
  - intros [= <-] H. by apply Forall_cons in H as [_ H].
  - destruct (removeRequest q l) as [l'|]; [|done].
    intros [= <-] H. apply Forall_cons in H as [Hq H].
    apply Forall_cons. split; [done|]. by apply IH.
Qed.

Lemma fetchLogs_start_invariant (productId : string) (page : Z) (st : State) :
  viewerInvariant st -> viewerInvariant (fetchLogs_start productId page st).
Proof.
  intros [Hnamed Hloading]. unfold fetchLogs_start.
  destruct (String.eqb_spec productId ""); [done|].
  split; simpl.
  - apply Forall_app. split; [done|]. by apply Forall_singleton.
  - intros _. by destruct (inflight st).
Qed.

Lemma step_invariant (e : Event) (st : State) :
  viewerInvariant st -> viewerInvariant (step e st).
Proof.
  intros Hinv. destruct e as [productId| | | |q r]; simpl.
  - destruct (String.eqb productId (selectedProductId st)); [done|].
    destruct (String.eqb productId "") eqn:Hp.
    + done.
    + by apply (fetchLogs_start_invariant productId 1 (setSelectedProductId productId st)).
  - destruct (_ && _); [by apply fetchLogs_start_invariant|done].
  - destruct (_ && _); [by apply fetchLogs_start_invariant|done].
  - destruct (_ && _); [by apply fetchLogs_start_invariant|done].
  - destruct (removeRequest q (inflight st)) as [rest|] eqn:Hq; [|done].
    destruct Hinv as [Hnamed _]. split.
    + assert (Hrest : Forall (fun q => req_productId q <> "") rest)
        by (by eapply removeRequest_Forall).
      unfold fetchLogs_resume.
      by destruct (fetchLogs_try r (setInflight rest st)) as [st'|] eqn:Htry;
        [destruct r as [| |status [|[] [d|]]]; simpl in Htry; try discriminate;
         injection Htry as <-|].
    + unfold fetchLogs_resume. by destruct (fetchLogs_try r (setInflight rest st)).
Qed.

(** Whatever the user does and whatever the responses are, the viewer never
    asks for logs without a product id, and its spinner is on only while
    some request is still in flight. *)
Theorem viewer_invariant (events : list Event) :
  viewerInvariant (run events initialState).
Proof.
  unfold run.
  assert (H : forall st, viewerInvariant st ->
            viewerInvariant (fold_left (fun st e => step e st) events st)).
  { induction events as [|e events IH]; intros st Hst; simpl; [done|].
    by apply IH, step_invariant. }
  apply H. split; [constructor|done].
Qed.

(** ** The formatter on negative and on whole numbers *)

(** A negative number is never abbreviated: no bracket applies to it, so it
    is printed by [toFixed(0)] whatever its magnitude, minus sign first. *)
Theorem formatNumber_negative (value : float) :
  (value <? 0)%float = true ->
  formatNumber value = toFixed value 0 /\
  exists rest, formatNumber value = "-" ++ rest.
Proof.
  intros Hneg. rewrite FloatAxioms.ltb_spec in Hneg.
  assert (Hcases : Prim2SF value = S754_infinity true \/
                   exists m e, Prim2SF value = S754_finite true m e).
  { destruct (Prim2SF value) as [[]|[]| |[] m e]; try discriminate Hneg; eauto. }
  assert (Hnan : is_nan value = false).
  { unfold is_nan. rewrite FloatAxioms.eqb_spec.
    destruct Hcases as [->|(m & e & ->)]; [done|].
    unfold SFeqb, SFcompare. by rewrite Z.compare_refl, Pos.compare_refl. }
  assert (Hle : forall t, (exists m e, Prim2SF t = S754_finite false m e) ->
                          (t <=? value)%float = false).
  { intros t (m' & e' & Ht). rewrite FloatAxioms.leb_spec, Ht.
    by destruct Hcases as [->|(m & e & ->)]. }
  assert (Hbody : formatNumber value = toFixed value 0).
  { unfold formatNumber. rewrite Hnan.
    rewrite !Hle; [done|..]; by eexists _, _. }
  split; [done|]. rewrite Hbody. unfold toFixed.
  destruct Hcases as [->|(m & e & ->)]; [by eexists|].
  destruct (1e21 <=? abs value)%float; by eexists.
Qed.

Lemma formatNumber_negative_witness :
  formatNumber (-15000000) = toFixed (-15000000) 0 /\
  exists rest, formatNumber (-15000000) = "-" ++ rest.
Proof. apply formatNumber_negative. reflexivity. Defined.

Lemma shownExactly_all :
  forallb shownExactly (seqZ (-999) 1999) = true.
Proof. vm_compute. reflexivity. Qed.

(** A whole number between -999 and 999 is shown as itself, digit for
    digit. *)
Theorem formatNumber_small_integers (n : Z) :
  -1000 < n < 1000 -> formatNumber (number_of_Z n) = string_of_Z n.
Proof.
  intros Hn. apply String.eqb_eq.
  pose proof shownExactly_all as H. rewrite forallb_forall in H.
  apply (H n). apply list_elem_of_In, elem_of_seqZ. lia.
Qed.

Lemma formatNumber_small_integers_witness :
  formatNumber (number_of_Z 999) = string_of_Z 999.
Proof. apply formatNumber_small_integers. lia. Defined.

(** ** The length of a displayed name *)

(** A displayed name is never longer than its limit plus the three dots: a
    bar label has at most 15 characters and a pie label at most 18, in both
    variants of the widget. *)
Theorem displayed_name_length (limit index : nat) (s : string)
    (c : Legacy.CategorySalesData) (c' : Enhanced.CategoryPerformance) :
  String.length (truncateName limit s)
  = (if (limit <? String.length s)%nat then limit + 3 else String.length s)%nat /\
  (String.length (truncateName limit s) <= limit + 3)%nat /\
  (String.length (Legacy.bar_name (Legacy.barDatum index c)) <= 15)%nat /\
  (String.length (Legacy.pie_name (Legacy.pieDatum index c)) <= 18)%nat /\
  (String.length (Enhanced.bar_name (Enhanced.barDatum index c')) <= 15)%nat /\
  (String.length (Enhanced.pie_name (Enhanced.pieDatum index c')) <= 18)%nat.
Proof.
  assert (H : forall limit s,
            String.length (truncateName limit s)
            = (if (limit <? String.length s)%nat then limit + 3
               else String.length s)%nat).
  { intros l t. unfold truncateName.
    destruct (Nat.ltb_spec l (String.length t)); [|done].
    rewrite length_append. destruct (substring_prefix l t) as [-> _]; [lia|done]. }
  assert (Hle : forall limit s, (String.length (truncateName limit s) <= limit + 3)%nat).
  { intros l t. rewrite H. destruct (Nat.ltb_spec l (String.length t)); lia. }
  split; [apply H|]. split; [apply Hle|].
  repeat split; simpl;
    first [exact (Hle 12%nat _) | exact (Hle 15%nat _)].
Qed.
